(** * The minify / unminify shell scripts of the site, and their properties

    The repository ships two POSIX shell scripts.  The first defines a
    function [minify] and calls it on four layout directories; the second
    defines [unminify] and calls it on the same four directories.

    {v
    minify() {                               unminify() {
        cd "$1"                                  cd "$1"
        [ ! -d .tmp ] && mkdir .tmp              for f in $(ls); do
        for f in $(ls); do                           if [ -f $f ]; then
            if [ -f $f ]; then                           cp .tmp/$f $f
                cp $f .tmp/$f                            continue
                cat .tmp/$f | tr -d '\n'             fi
                  | tr -d '\t'                   done
                  | sed -E "s/\{2,}//g" > $f     rm -r .tmp/
            fi                                   cd -
        done                                 }
        cd -
    }
    v}

    The embedding below follows the scripts command by command.

    - A file system is a tree of [node]s: a regular file holds bytes, a
      directory holds a finite map from entry names to nodes.
    - The commands of a function body act on the working directory; they are
      written in a small state monad [cmd] over that directory and the
      diagnostics printed so far.  [cd] and [cd -] act on the whole shell
      state [shell] (tree, working directory, [OLDPWD], diagnostics).
    - Neither script sets [-e]: a failing command prints a diagnostic and
      the script goes on with the next command.
    - An exit status is [Zero] or [NonZero]; the precise non-zero value
      depends on the shell and is not modelled.

    Modelled fragment.  The scripts quote nothing but ["$1"]: every word
    of [$(ls)] and every [$f] is split at white space and then undergoes
    pathname expansion, and [cp] reads a word that starts with [-] as
    options.  Field splitting is modelled; pathname expansion and option
    parsing are not.  The commands below take a word literally, which is
    what the shell and [cp] do with a word that is [plain]: one that does
    not start with [-] and contains none of [*], [?], [[] and backslash.
    Likewise [cd] is modelled for an operand that is a relative path of
    entry names ([plain_operand]): no leading [/] or [-], no component [.]
    or [..].  The definitions are total, but outside this fragment they do
    not describe the scripts; every statement below about what a call
    does to files therefore assumes [plain_listing] of the directory the
    loop lists and [plain_operand] of the operand.  The statements about
    the scripts' exit status and final working directory carry no such
    assumption: the operands there are the four fixed paths, and no
    command of a loop body changes directory or removes one.

    Further assumptions, which the data model fixes.  A tree gives every
    name a node of its own: no hard links between names, no symbolic
    links, no special files; every node can be read and written.  [IFS]
    and [CDPATH] are not set by the caller.  [ls] sorts bytewise (the C
    locale); [sed] is GNU sed, which does not add a final newline to an
    input that has none.  The shell is dash, the [/bin/sh] of Debian and
    Ubuntu; the one place where shells are known to differ is [cd -] with
    [OLDPWD] unset (see [cd_minus]). *)

From Stdlib Require Import Strings.Byte Strings.Ascii Strings.String.
From stdpp Require Import gmap strings list fin_maps sorting.

#[local] Set Warnings "-register-all,-clear-no-such-hyp".

(** ** The filter pipeline [tr -d '\n' | tr -d '\t' | sed -E "s/\{2,}//g"] *)

Module Pipeline.

Definition newline : byte := x0a.
Definition tab : byte := x09.

(** [tr -d c]: delete every occurrence of the byte [c]. *)
Fixpoint tr_d (c : byte) (s : list byte) : list byte :=
  match s with
  | [] => []
  | b :: s' => if Byte.eqb b c then tr_d c s' else b :: tr_d c s'
  end.

(** In a double-quoted shell word the backslash of [\{] is kept, so sed
    receives [s/\{2,}//g].  With [-E] the escaped brace is a literal [{];
    [2], [,] and the unmatched [}] are ordinary characters.  The
    expression therefore matches the four bytes [{2,}] and nothing else. *)
Definition sed_regex : list byte := [x7b; x32; x2c; x7d].

Fixpoint starts_with (p s : list byte) : bool :=
  match p, s with
  | [], _ => true
  | _ :: _, [] => false
  | a :: p', b :: s' => Byte.eqb a b && starts_with p' s'
  end.

(** [s/p//g] on one line: scan from the left; where [p] matches, drop the
    match and resume after it (matches do not overlap and the output is
    not scanned again).  [skip] counts the bytes of the current match that
    are still to be dropped. *)
Fixpoint sed_delete (p : list byte) (skip : nat) (s : list byte) : list byte :=
  match s with
  | [] => []
  | b :: s' =>
      match skip with
      | S k => sed_delete p k s'
      | O => if starts_with p s then sed_delete p (length p - 1) s'
             else b :: sed_delete p 0 s'
      end
  end.

(** The regex contains no newline, so no match spans two lines and the
    line-by-line substitution of sed is the substitution on the whole
    input. *)
Definition sed_s_g (s : list byte) : list byte := sed_delete sed_regex 0 s.

(** The two [tr] stages. *)
Definition strip (s : list byte) : list byte := tr_d tab (tr_d newline s).

Definition pipeline (s : list byte) : list byte := sed_s_g (strip s).


(** Does [p] occur in [s] as a contiguous block? *)
Fixpoint occursb (p s : list byte) : bool :=
  starts_with p s ||
  match s with [] => false | _ :: s' => occursb p s' end.


End Pipeline.

(** ** Field splitting *)

Module Words.

(** Split [s] at the characters selected by [sep]; empty pieces are
    dropped.  [acc] is the piece read so far. *)
Definition flush (acc : string) : list string :=
  match acc with EmptyString => [] | _ => [acc] end.

Fixpoint tokens (sep : ascii → bool) (acc s : string) : list string :=
  match s with
  | EmptyString => flush acc
  | String a s' =>
      if sep a then flush acc ++ tokens sep EmptyString s'
      else tokens sep (acc +:+ String a EmptyString) s'
  end.

(** The default [IFS]: space, tab, newline. *)
Definition is_ifs (a : ascii) : bool :=
  Ascii.eqb a " " || Ascii.eqb a "009" || Ascii.eqb a "010".

(** Field splitting of an unquoted expansion. *)
Definition fields (s : string) : list string := tokens is_ifs EmptyString s.

(** Does [s] contain a character selected by [sep]? *)
Fixpoint has_sep (sep : ascii → bool) (s : string) : bool :=
  match s with
  | EmptyString => false
  | String a s' => sep a || has_sep sep s'
  end.

(** Names with white space are the ones field splitting breaks up. *)
Definition has_ifs (s : string) : bool := has_sep is_ifs s.

Definition is_slash (a : ascii) : bool := Ascii.eqb a "/".

(** The entry names along a path operand such as [_layouts/indexes]. *)
Definition path_of (arg : string) : list string := tokens is_slash EmptyString arg.

(** The characters that make a word a pattern for pathname expansion. *)
Definition is_glob (a : ascii) : bool :=
  Ascii.eqb a "*" || Ascii.eqb a "?" || Ascii.eqb a "[" || Ascii.eqb a "092".

Definition has_glob (s : string) : bool := has_sep is_glob s.

(** Does [s] start with the character [a]? *)
Definition leads (a : ascii) (s : string) : bool :=
  match s with String b _ => Ascii.eqb a b | EmptyString => false end.

(** A word that the shell and [cp] take literally: pathname expansion
    leaves it alone and it is not read as options. *)
Definition plain (w : string) : bool := negb (leads "-" w) && negb (has_glob w).

(** A directory component that is an entry name, not [.] or [..]. *)
Definition is_entry_name (n : string) : bool :=
  negb (String.eqb n ".") && negb (String.eqb n "..").

(** An operand that [cd] resolves entry by entry below the working
    directory: a relative path that is not read as an option or as [-], and
    has no [.] or [..] among its components. *)
Definition plain_operand (arg : string) : bool :=
  negb (leads "/" arg) && negb (leads "-" arg) &&
  forallb is_entry_name (path_of arg).

End Words.

(** ** File system *)

Inductive node : Type :=
  | File (content : list byte)
  | Dir (entries : gmap string node).

Definition is_file (o : option node) : bool :=
  match o with Some (File _) => true | _ => false end.

Definition is_dir (o : option node) : bool :=
  match o with Some (Dir _) => true | _ => false end.

(** Whether a name is free, a regular file or a directory. *)
Inductive kind : Type := Absent | Regular | Folder.

Definition kind_of (o : option node) : kind :=
  match o with
  | None => Absent
  | Some (File _) => Regular
  | Some (Dir _) => Folder
  end.

(** The cache folder of the scripts. *)
Definition tmp : string := ".tmp".

(** The entries of the cache folder of directory [D] (none when [.tmp] is
    missing or is not a directory). *)
Definition cache_of (D : gmap string node) : gmap string node :=
  match D !! tmp with Some (Dir C) => C | _ => ∅ end.

(** *** [ls] and [$(ls)] *)

Definition hidden (n : string) : bool :=
  match n with String "." _ => true | _ => false end.

Definition name_le (a b : string) : Prop := String.leb a b = true.

#[global] Instance name_le_dec a b : Decision (name_le a b).
Proof. unfold name_le. apply _. Defined.

(** [ls] without options: the names that do not start with a dot, sorted. *)
Definition ls (D : gmap string node) : list string :=
  merge_sort name_le (filter (λ n, hidden n = false) (map_to_list D).*1).

(** Not writing to a terminal, [ls] prints one name per line. *)
Definition ls_output (D : gmap string node) : string :=
  foldr (λ n out, n +:+ String "010" out) EmptyString (ls D).

(** The words the loop [for f in $(ls)] runs over: the fields of the
    listing.  The shell expands a field that is not [Words.plain] as a
    pattern; that step is not modelled. *)
Definition ls_words (D : gmap string node) : list string :=
  Words.fields (ls_output D).

(** The listing of [D] lies in the modelled fragment: every word of the
    loop is plain, so that the loop runs over exactly these words and each
    command of its body receives the word as one literal operand. *)
Definition plain_listing (D : gmap string node) : bool :=
  forallb Words.plain (ls_words D).

(** ** Commands inside the working directory *)

(** An exit status: zero, or some non-zero value. *)
Inductive status : Type := Zero | NonZero.

(** The operands the two loops name: [$f] and [.tmp/$f]. *)
Inductive operand : Type :=
  | Entry (n : string)
  | Cached (n : string).

#[global] Instance operand_eq_dec : EqDecision operand.
Proof. solve_decision. Defined.

(** One line on standard error. *)
Inductive diag : Type :=
  | cd_failed (arg : string)
  | mkdir_failed (n : string)
  | cp_failed (src dst : operand)
  | cat_failed (p : operand)
  | redirect_failed (n : string)
  | rm_failed (n : string).

(** The working directory and the diagnostics printed so far. *)
Record env : Type := Env { dir : gmap string node; err : list diag }.

Definition cmd (A : Type) : Type := env → A * env.

#[global] Instance cmd_ret : MRet cmd := λ A a e, (a, e).
#[global] Instance cmd_bind : MBind cmd :=
  λ A B k m e, let '(a, e') := m e in k a e'.

Definition complain (d : diag) : cmd status :=
  λ e, (NonZero, Env (dir e) (err e ++ [d])).

Definition put_dir (D : gmap string node) : cmd status :=
  λ e, (Zero, Env D (err e)).

Definition basename (p : operand) : string :=
  match p with Entry n | Cached n => n end.

(** The node an operand names, if any. *)
Definition resolve (p : operand) (D : gmap string node) : option node :=
  match p with
  | Entry n => D !! n
  | Cached n => match D !! tmp with Some (Dir C) => C !! n | _ => None end
  end.

(** The directory after [v] has been put at [p]; [None] when the parent of
    [p] is not a directory. *)
Definition store (p : operand) (v : node) (D : gmap string node)
  : option (gmap string node) :=
  match p with
  | Entry n => Some (<[n := v]> D)
  | Cached n =>
      match D !! tmp with
      | Some (Dir C) => Some (<[tmp := Dir (<[n := v]> C)]> D)
      | _ => None
      end
  end.

(** [[ -d n ]] and [[ -f n ]]. *)
Definition test_d (n : string) : cmd bool := λ e, (is_dir (dir e !! n), e).
Definition test_f (n : string) : cmd bool := λ e, (is_file (dir e !! n), e).

(** [mkdir n]: fails when [n] exists. *)
Definition mkdir (n : string) : cmd status :=
  λ e, match dir e !! n with
       | None => put_dir (<[n := Dir ∅]> (dir e)) e
       | Some _ => complain (mkdir_failed n) e
       end.

(** [cp src dst] without [-r].  The source must be a regular file.  When
    the destination is a directory the copy goes inside it, under the
    source's base name, unless a directory of that name is in the way.
    Otherwise the destination is created or overwritten; its parent must
    be a directory. *)
Definition cp (src dst : operand) : cmd status :=
  λ e,
    let D := dir e in
    match resolve src D with
    | Some (File c) =>
        let written :=
          if decide (src = dst) then None
          else match resolve dst D with
               | Some (Dir E) =>
                   if is_dir (E !! basename src) then None
                   else store dst (Dir (<[basename src := File c]> E)) D
               | _ => store dst (File c) D
               end in
        match written with
        | Some D' => put_dir D' e
        | None => complain (cp_failed src dst) e
        end
    | _ => complain (cp_failed src dst) e
    end.

(** [cat p]: the bytes of a regular file; otherwise a diagnostic and no
    output. *)
Definition cat (p : operand) : cmd (list byte) :=
  λ e, match resolve p (dir e) with
       | Some (File c) => (c, e)
       | _ => ([], snd (complain (cat_failed p) e))
       end.

(** [... > n]: the shell creates or truncates [n] and the last command of
    the pipeline writes [out] into it.  The redirection fails on a
    directory. *)
Definition redirect (n : string) (out : list byte) : cmd status :=
  λ e, if is_dir (dir e !! n) then complain (redirect_failed n) e
       else put_dir (<[n := File out]> (dir e)) e.

(** [rm -r n/]: the trailing slash demands a directory. *)
Definition rm_r (n : string) : cmd status :=
  λ e, if is_dir (dir e !! n) then put_dir (delete n (dir e)) e
       else complain (rm_failed n) e.

(** [$(ls)], split into words. *)
Definition dollar_ls : cmd (list string) := λ e, (ls_words (dir e), e).

(** [[ ! ... ]] *)
Definition test_not (c : cmd bool) : cmd bool :=
  λ e, let '(b, e') := c e in (negb b, e').

(** [if c; then body; fi], and likewise [c && body] when the status of the
    list is not used. *)
Definition if_then {A} (c : cmd bool) (body : cmd A) : cmd unit :=
  λ e, let '(b, e') := c e in if b then ((), snd (body e')) else ((), e').

(** [for f in ws; do body; done] *)
Fixpoint for_in (ws : list string) (body : string → cmd unit) : cmd unit :=
  match ws with
  | [] => mret ()
  | f :: ws' => body f ;; for_in ws' body
  end.

(** The body of the loop of [minify], for a plain word [f]: [$f] is then
    the one operand [f], and [.tmp/$f] the one operand [.tmp/f]. *)
Definition minify_file (f : string) : cmd unit :=
  if_then (test_f f)
    (cp (Entry f) (Cached f) ;;
     out ← cat (Cached f);
     redirect f (Pipeline.sed_s_g
                   (Pipeline.tr_d Pipeline.tab
                      (Pipeline.tr_d Pipeline.newline out)))).

(** The commands of [minify] between [cd "$1"] and [cd -]. *)
Definition minify_here : cmd unit :=
  if_then (test_not (test_d tmp)) (mkdir tmp) ;;
  ws ← dollar_ls;
  for_in ws minify_file.

(** The body of the loop of [unminify], for a plain word [f]; [continue]
    is its last command. *)
Definition unminify_file (f : string) : cmd unit :=
  if_then (test_f f) (cp (Cached f) (Entry f)).

(** The commands of [unminify] between [cd "$1"] and [cd -]. *)
Definition unminify_here : cmd unit :=
  ws ← dollar_ls;
  for_in ws unminify_file ;;
  rm_r tmp ;;
  mret ().

(** The state in which a command sequence leaves the working directory. *)
Definition run (m : cmd unit) (e : env) : env := snd (m e).

(** A command only ever adds to what standard error holds. *)
Definition appends {A} (m : cmd A) : Prop :=
  ∀ e, err e `prefix_of` err (m e).2.

(** Content without newline and tab bytes. *)
Definition clean (c : list byte) : Prop :=
  (Pipeline.newline ∉ c) ∧ (Pipeline.tab ∉ c).

(** ** The shell *)

Record shell : Type := Shell {
  fs : gmap string node;          (* the entries of the root directory *)
  cwd : list string;              (* the working directory, from the root *)
  oldpwd : option (list string);  (* [OLDPWD], when set *)
  stderr : list diag
}.

Definition sh (A : Type) : Type := shell → A * shell.

#[global] Instance sh_ret : MRet sh := λ A a s, (a, s).
#[global] Instance sh_bind : MBind sh :=
  λ A B k m s, let '(a, s') := m s in k a s'.

(** The directory at path [p] below [R]. *)
Fixpoint dir_at (p : list string) (R : gmap string node)
  : option (gmap string node) :=
  match p with
  | [] => Some R
  | x :: q => match R !! x with Some (Dir E) => dir_at q E | _ => None end
  end.

(** [R] with the directory at path [p] replaced by [N]. *)
Fixpoint set_dir (p : list string) (N R : gmap string node)
  : gmap string node :=
  match p with
  | [] => N
  | x :: q =>
      match R !! x with
      | Some (Dir E) => <[x := Dir (set_dir q N E)]> R
      | _ => R
      end
  end.

(** The entry [n] of the directory at [p], and the cached copy of [n]
    there. *)
Definition entry_at (p : list string) (n : string) (R : gmap string node)
  : option node :=
  dir_at p R ≫= λ D, D !! n.

Definition cached_at (p : list string) (n : string) (R : gmap string node)
  : option node :=
  dir_at p R ≫= λ D, cache_of D !! n.

(** [cd arg] for an operand that is [Words.plain_operand]: the path is
    followed entry by entry from the working directory.  On success
    [OLDPWD] takes the old working directory; on failure nothing moves and
    the script goes on where it was. *)
Definition cd (arg : string) : sh status :=
  λ s,
    let p := cwd s ++ Words.path_of arg in
    match dir_at p (fs s) with
    | Some _ => (Zero, Shell (fs s) p (Some (cwd s)) (stderr s))
    | None => (NonZero, Shell (fs s) (cwd s) (oldpwd s) (stderr s ++ [cd_failed arg]))
    end.

(** [cd -]: change to [$OLDPWD].  With [OLDPWD] unset, dash stays where it
    is, sets [OLDPWD] to that directory and returns zero, without a
    diagnostic; this is what is modelled.  (bash prints "OLDPWD not set"
    and fails instead; no statement below depends on the difference, each
    either has the preceding [cd] succeed or assumes [OLDPWD] set.) *)
Definition cd_minus : sh status :=
  λ s,
    match oldpwd s with
    | None => (Zero, Shell (fs s) (cwd s) (Some (cwd s)) (stderr s))
    | Some p =>
        match dir_at p (fs s) with
        | Some _ => (Zero, Shell (fs s) p (Some (cwd s)) (stderr s))
        | None => (NonZero, Shell (fs s) (cwd s) (oldpwd s) (stderr s ++ [cd_failed "-"]))
        end
    end.

(** Run commands in the working directory.  The scripts never remove the
    directory they stand in; should it be missing, nothing is done. *)
Definition in_cwd (m : cmd unit) : sh unit :=
  λ s,
    match dir_at (cwd s) (fs s) with
    | Some D =>
        let e := run m (Env D (stderr s)) in
        ((), Shell (set_dir (cwd s) (dir e) (fs s)) (cwd s) (oldpwd s) (err e))
    | None => ((), s)
    end.

(** The two shell functions.  Their status is that of their last command. *)
Definition minify (arg : string) : sh status :=
  cd arg ;; in_cwd minify_here ;; cd_minus.

Definition unminify (arg : string) : sh status :=
  cd arg ;; in_cwd unminify_here ;; cd_minus.

(** The two scripts.  Their exit status is that of their last call. *)
Definition minify_script : sh status :=
  minify "_layouts" ;;
  minify "_layouts/indexes" ;;
  minify "_layouts/indexes/category" ;;
  minify "_layouts/partials".

Definition unminify_script : sh status :=
  unminify "_layouts" ;;
  unminify "_layouts/indexes" ;;
  unminify "_layouts/indexes/category" ;;
  unminify "_layouts/partials".

(** The shell stands below the directory [c] it started in, and so does
    [OLDPWD]: both name existing directories reached from [c] without
    passing through a cache folder. *)
Definition settled (c : list string) (s : shell) : Prop :=
  ∃ q q', cwd s = c ++ q ∧ oldpwd s = Some (c ++ q') ∧
          (tmp ∉ q) ∧ (tmp ∉ q') ∧
          is_Some (dir_at (c ++ q) (fs s)) ∧
          is_Some (dir_at (c ++ q') (fs s)).

(** ** Sample directories *)

Module Examples.

Definition bytes (s : string) : list byte := list_byte_of_string s.

(** A page laid out on several lines: [<p>], newline, tab, [hello],
    newline, [</p>]. *)
Definition page : list byte :=
  bytes "<p>" ++ [x0a; x09] ++ bytes "hello" ++ [x0a] ++ bytes "</p>".

(** The layout tree the scripts are written for. *)
Definition category : gmap string node := {[ "index" := File page ]}.
Definition indexes : gmap string node :=
  {[ "category" := Dir category; "list" := File page ]}.
Definition partials : gmap string node := {[ "sidebar" := File page ]}.
Definition layouts : gmap string node :=
  {[ "post" := File page; "indexes" := Dir indexes; "partials" := Dir partials ]}.

Definition go_source : list byte := bytes "package main" ++ [x0a] ++ bytes "func main() {}".

(** A shell standing in the checkout, [OLDPWD] unset. *)
Definition checkout (L : gmap string node) : shell :=
  Shell {[ "site" := Dir {[ "_layouts" := Dir L; "serve.go" := File go_source ]} ]}
        ["site"] None [].

Definition site : shell := checkout layouts.

(** The same checkout without [_layouts/indexes/category]. *)
Definition indexes_flat : gmap string node := {[ "list" := File page ]}.
Definition site_flat : shell :=
  checkout {[ "post" := File page; "indexes" := Dir indexes_flat;
              "partials" := Dir partials ]}.

(** A shell standing above a single directory [d]. *)
Definition above (D : gmap string node) : shell :=
  Shell {[ "d" := Dir D ]} [] None [].

(** Two regular files; the name of the second contains a space. *)
Definition two_lines : list byte := bytes "x" ++ [x0a] ++ bytes "y".
Definition spaced : gmap string node :=
  {[ "a" := File two_lines; "b a" := File (bytes "z") ]}.

(** The same names; the first file holds nested copies of the regex
    text. *)
Definition nested : gmap string node :=
  {[ "a" := File (bytes "{2{2{2,},},}"); "b a" := File (bytes "z") ]}.

(** A hidden file whose name is also the second word of a visible one. *)
Definition dotted : gmap string node :=
  {[ ".env" := File two_lines; "x .env" := File (bytes "z") ]}.

(** A hidden file next to an ordinary one. *)
Definition quiet : gmap string node :=
  {[ ".env" := File two_lines; "a" := File two_lines ]}.

(** A minified directory from which a file was deleted afterwards. *)
Definition pruned : gmap string node :=
  {[ ".tmp" := Dir {[ "gone" := File two_lines; "kept" := File two_lines ]};
     "kept" := File (bytes "xy") ]}.

End Examples.

(** A directory on which a round trip is exact: it has no entry [.tmp],
    and no word of its listing, split at white space, occurs twice. *)
Definition ready (D : gmap string node) : Prop :=
  D !! tmp = None ∧ NoDup (ls_words D).

(** Further sample directories. *)
Module Samples.

(** A directory with a subdirectory and a hidden file, but no visible
    regular file. *)
Definition bare : gmap string node :=
  {[ "sub" := Dir ∅; ".keep" := File Examples.two_lines ]}.

(** A directory in which [.tmp] is a regular file. *)
Definition blocked : gmap string node :=
  {[ ".tmp" := File (Examples.bytes "note"); "a" := File Examples.two_lines ]}.

(** The checkout, entered from the root: [OLDPWD] is the root. *)
Definition entered : shell :=
  Shell (fs Examples.site) ["site"] (Some []) [].

End Samples.

(** * Properties *)

(** ** The pipeline *)

Section pipeline_facts.
Import Pipeline.

Lemma byte_eqb_true (a b : byte) : Byte.eqb a b = true ↔ a = b.
Proof. split; [apply Byte.byte_dec_bl | apply Byte.byte_dec_lb]. Qed.

Lemma byte_eqb_refl (a : byte) : Byte.eqb a a = true.
Proof. by apply byte_eqb_true. Qed.

Lemma tr_d_elem c x s : x ∈ tr_d c s ↔ x ∈ s ∧ x ≠ c.
Proof.
  induction s as [|b s IH]; simpl.
  - split; [intros H | intros [H _]]; by apply elem_of_nil in H.
  - destruct (Byte.eqb b c) eqn:E.
    + apply byte_eqb_true in E. subst b. rewrite IH, elem_of_cons. naive_solver.
    + apply Byte.eqb_false in E. rewrite !elem_of_cons, IH. naive_solver.
Qed.



Lemma strip_elem x s : x ∈ strip s ↔ x ∈ s ∧ x ≠ newline ∧ x ≠ tab.
Proof. unfold strip. rewrite !tr_d_elem. naive_solver. Qed.

Lemma sed_delete_elem p k x s : x ∈ sed_delete p k s → x ∈ s.
Proof.
  revert k. induction s as [|b s IH]; intros k; simpl; [done|].
  destruct k as [|k].
  - destruct (starts_with p (b :: s)).
    + intros H. apply elem_of_cons. right. by eapply IH.
    + rewrite !elem_of_cons. intros [->|H]; [by left | right; by eapply IH].
  - intros H. apply elem_of_cons. right. by eapply IH.
Qed.

(** What comes out of the pipeline was in the input and is neither a
    newline nor a tab. *)
Lemma pipeline_elem x s : x ∈ pipeline s → x ∈ s ∧ x ≠ newline ∧ x ≠ tab.
Proof. intros H. apply strip_elem. by eapply sed_delete_elem. Qed.

Lemma pipeline_clean s : clean (pipeline s).
Proof. split; intros H%pipeline_elem; naive_solver. Qed.


Lemma occursb_spec p s : occursb p s = true ↔ ∃ u v, s = u ++ p ++ v.
Proof.
  assert (Hsw : ∀ t, starts_with p t = true ↔ ∃ v, t = p ++ v).
  { induction p as [|a p IH]; intros [|b t]; simpl.
    - split; [by exists [] | done].
    - split; [by exists (b :: t) | done].
    - split; [done | by intros [v ?]].
    - rewrite andb_true_iff, byte_eqb_true, IH. split.
      + intros [-> [v ->]]. by exists v.
      + intros [v [= -> ->]]. eauto. }
  induction s as [|b s IH]; simpl.
  - rewrite orb_false_r, Hsw. split.
    + intros [v Hv]. by exists [], v.
    + intros [[|??] [v Hv]]; [by exists v | done].
  - rewrite orb_true_iff, Hsw, IH. split.
    + intros [[v Hv] | (u & v & ->)]; [by exists [], v | by exists (b :: u), v].
    + intros [[|c u] [v Hv]]; simpl in Hv.
      * left. by exists v.
      * right. injection Hv as -> ->. by exists u, v.
Qed.

Lemma sed_delete_absent p s : occursb p s = false → sed_delete p 0 s = s.
Proof.
  induction s as [|b s IH]; simpl; [done|].
  rewrite orb_false_iff. intros [-> Hs]. by rewrite IH.
Qed.




End pipeline_facts.

(** ** Field splitting and the listing *)

Section words_facts.
Import Words.

Lemma append_cons a (s t : string) : String a s +:+ t = String a (s +:+ t).
Proof. reflexivity. Qed.

Lemma append_empty_r (s : string) : s +:+ EmptyString = s.
Proof. induction s as [|a s IH]; [done | by rewrite append_cons, IH]. Qed.

Lemma append_assoc (s t u : string) : (s +:+ t) +:+ u = s +:+ (t +:+ u).
Proof. induction s as [|a s IH]; [done | by rewrite !append_cons, IH]. Qed.


Lemma elem_of_flush w acc : w ∈ flush acc ↔ w = acc ∧ acc ≠ EmptyString.
Proof.
  destruct acc; simpl.
  - rewrite elem_of_nil. naive_solver.
  - rewrite list_elem_of_singleton. naive_solver.
Qed.


(** Splitting at a separator splits the token list. *)
Lemma tokens_app sep acc s c t :
  sep c = true →
  tokens sep acc (s +:+ String c t) = tokens sep acc s ++ tokens sep EmptyString t.
Proof.
  intros Hc. revert acc. induction s as [|a s IH]; intros acc; simpl.
  - by rewrite Hc.
  - destruct (sep a); [by rewrite IH, app_assoc | apply IH].
Qed.

(** A piece without separators is one token. *)
Lemma tokens_plain sep acc s :
  has_sep sep s = false → tokens sep acc s = flush (acc +:+ s).
Proof.
  revert acc. induction s as [|a s IH]; intros acc; simpl.
  - by rewrite append_empty_r.
  - intros [Ha Hs]%orb_false_iff. rewrite Ha, IH by done.
    by rewrite append_assoc.
Qed.

Lemma fields_plain n :
  has_ifs n = false → n ≠ EmptyString → fields n = [n].
Proof.
  intros Hn Hne. unfold fields. rewrite tokens_plain by done.
  simpl. by destruct n.
Qed.


(** The words of [$(ls)] are the fields of the listed names, in order. *)
Lemma fields_lines (l : list string) :
  fields (foldr (λ n out, n +:+ String "010" out) EmptyString l) = l ≫= fields.
Proof.
  induction l as [|n l IH]; [done|].
  cbn [foldr]. unfold fields at 1. rewrite tokens_app by done.
  change (tokens is_ifs EmptyString ?x) with (fields x). by rewrite IH.
Qed.

Lemma ls_words_bind D : ls_words D = ls D ≫= fields.
Proof. apply fields_lines. Qed.

Lemma elem_of_ls D n : n ∈ ls D ↔ is_Some (D !! n) ∧ hidden n = false.
Proof.
  unfold ls. rewrite merge_sort_Permutation, list_elem_of_filter, list_elem_of_fmap.
  split.
  - intros [Hh [[k x] [-> Hkx]]]. apply elem_of_map_to_list in Hkx. eauto.
  - intros [[x Hx] Hh]. split; [done|]. exists (n, x). split; [done|].
    by apply elem_of_map_to_list.
Qed.

Lemma NoDup_ls D : NoDup (ls D).
Proof.
  unfold ls. rewrite merge_sort_Permutation.
  apply NoDup_filter, NoDup_fst_map_to_list.
Qed.

Lemma elem_of_ls_words D w :
  w ∈ ls_words D ↔
  ∃ n, is_Some (D !! n) ∧ hidden n = false ∧ w ∈ fields n.
Proof.
  rewrite ls_words_bind, list_elem_of_bind. setoid_rewrite elem_of_ls.
  naive_solver.
Qed.


(** A listed name without white space is a word of the loop. *)
Lemma ls_words_plain D n :
  is_Some (D !! n) → hidden n = false → has_ifs n = false → n ≠ EmptyString →
  n ∈ ls_words D.
Proof.
  intros Hn Hh Hi Hne. apply elem_of_ls_words. exists n.
  rewrite fields_plain by done. split_and!; [done..|]. by apply list_elem_of_singleton.
Qed.

(** The word list only depends on which visible names exist. *)
Lemma ls_words_same_names D D' w :
  (∀ n, hidden n = false → is_Some (D' !! n) ↔ is_Some (D !! n)) →
  w ∈ ls_words D' ↔ w ∈ ls_words D.
Proof.
  intros H. rewrite !elem_of_ls_words.
  split; intros (n & Hn & Hh & Hw); exists n; split_and!; try done; by apply (H n Hh).
Qed.

(** When no listed name contains white space, no word is repeated. *)
Lemma NoDup_ls_words D :
  (∀ n, is_Some (D !! n) → hidden n = false → has_ifs n = false) →
  NoDup (ls_words D).
Proof.
  intros H. rewrite ls_words_bind.
  assert (Hl : ∀ n, n ∈ ls D → has_ifs n = false).
  { intros n [??]%elem_of_ls. by apply H. }
  pose proof (NoDup_ls D) as Hnd. revert Hl Hnd.
  induction (ls D) as [|n l IH]; intros Hl Hnd; [constructor|].
  apply NoDup_cons in Hnd as [Hn Hnd]. cbn [mbind list_bind].
  assert (Hfn : fields n = flush n).
  { unfold fields. rewrite tokens_plain; [done|]. apply Hl. by left. }
  rewrite Hfn. apply NoDup_app. split_and!.
  - destruct n; simpl; [constructor | apply NoDup_singleton].
  - intros w [-> _]%elem_of_flush (m & Hw & Hm)%list_elem_of_bind.
    assert (fields m = flush m) as Hfm.
    { unfold fields. rewrite tokens_plain; [done|]. apply Hl. by right. }
    rewrite Hfm in Hw. apply elem_of_flush in Hw as [-> _]. done.
  - apply IH; [|done]. intros m Hm. apply Hl. by right.
Qed.

End words_facts.

(** ** One turn of each loop *)

Section step_facts.
Import Pipeline.
Implicit Types (D C : gmap string node) (e : env) (f g : string).

(** What one turn of the loop of [minify] does to the directory. *)
Lemma minify_file_dir f e :
  dir (run (minify_file f) e) =
  match dir e !! f with
  | Some (File c) =>
      if is_dir (dir e !! tmp) then
        match cache_of (dir e) !! f with
        | Some (Dir E) =>
            <[f := File []]>
              (if is_dir (E !! f) then dir e
               else <[tmp := Dir (<[f := Dir (<[f := File c]> E)]>
                                    (cache_of (dir e)))]> (dir e))
        | _ =>
            <[f := File (pipeline c)]>
              (<[tmp := Dir (<[f := File c]> (cache_of (dir e)))]> (dir e))
        end
      else <[f := File []]> (dir e)
  | _ => dir e
  end.
Proof.
  destruct e as [D l]. unfold run, minify_file, if_then, test_f. cbn [dir].
  destruct (D !! f) as [[c|E]|] eqn:Hf; cbn [is_file snd]; try done.
  unfold mbind, cmd_bind, cp, cat, redirect, cache_of.
  cbn [dir resolve store basename].
  rewrite Hf. rewrite decide_False by done.
  destruct (D !! tmp) as [[x|C]|] eqn:Ht; cbn [is_dir].
  - cbn. rewrite Ht. cbn. by rewrite Hf.
  - assert (f ≠ tmp) by congruence.
    destruct (C !! f) as [[y|E]|] eqn:Hc; cbn.
    + rewrite lookup_insert_eq. cbn. rewrite lookup_insert_eq. cbn.
      rewrite lookup_insert_ne by done. by rewrite Hf.
    + destruct (is_dir (E !! f)) eqn:HE; cbn.
      * rewrite Ht. cbn. rewrite Hc. cbn. by rewrite Hf.
      * rewrite lookup_insert_eq. cbn. rewrite lookup_insert_eq. cbn.
        rewrite lookup_insert_ne by done. by rewrite Hf.
    + rewrite lookup_insert_eq. cbn. rewrite lookup_insert_eq. cbn.
      rewrite lookup_insert_ne by done. by rewrite Hf.
  - cbn. rewrite Ht. cbn. by rewrite Hf.
Qed.

(** What one turn of the loop of [unminify] does to the directory. *)
Lemma unminify_file_dir f e :
  dir (run (unminify_file f) e) =
  match dir e !! f, cache_of (dir e) !! f with
  | Some (File _), Some (File c) => <[f := File c]> (dir e)
  | _, _ => dir e
  end.
Proof.
  destruct e as [D l]. unfold run, unminify_file, if_then, test_f. cbn [dir].
  destruct (D !! f) as [[x|E]|] eqn:Hf; cbn [is_file snd]; try done.
  unfold cp, cache_of. cbn [dir resolve store basename].
  destruct (D !! tmp) as [[y|C]|] eqn:Ht; cbn; rewrite ?lookup_empty; try done.
  destruct (C !! f) as [[c|E]|]; cbn; try done.
  rewrite decide_False by done. by rewrite Hf.
Qed.

Lemma cache_of_insert_tmp D C : cache_of (<[tmp := Dir C]> D) = C.
Proof. unfold cache_of. by rewrite lookup_insert_eq. Qed.

Lemma cache_of_insert_ne D g x : g ≠ tmp → cache_of (<[g := x]> D) = cache_of D.
Proof. intros. unfold cache_of. by rewrite lookup_insert_ne. Qed.

Lemma cache_of_not_dir D : is_dir (D !! tmp) = false → cache_of D = ∅.
Proof. unfold cache_of. by destruct (D !! tmp) as [[|]|]. Qed.

Lemma is_dir_cache D : is_dir (D !! tmp) = true → D !! tmp = Some (Dir (cache_of D)).
Proof. unfold cache_of. by destruct (D !! tmp) as [[|]|]. Qed.

(** A turn of [minify] never changes what kind of entry a name is. *)
Lemma minify_file_kind f e g :
  kind_of (dir (run (minify_file f) e) !! g) = kind_of (dir e !! g).
Proof.
  rewrite minify_file_dir.
  destruct (dir e !! f) as [[c|?]|] eqn:Hf; try done.
  destruct (is_dir (dir e !! tmp)) eqn:Ht.
  - assert (f ≠ tmp) by (intros ->; by rewrite Hf in Ht).
    pose proof (is_dir_cache _ Ht) as Ht'.
    destruct (cache_of (dir e) !! f) as [[y|E]|]; [| destruct (is_dir (E !! f)) |];
      (destruct (decide (g = f)) as [->|];
       [by rewrite lookup_insert_eq, Hf
       | rewrite lookup_insert_ne by done;
         try (destruct (decide (g = tmp)) as [->|];
              [by rewrite lookup_insert_eq, Ht'
              | by rewrite lookup_insert_ne by done]); done]).
  - destruct (decide (g = f)) as [->|];
      [by rewrite lookup_insert_eq, Hf | by rewrite lookup_insert_ne by done].
Qed.

(** A turn for [f] changes at most the regular file [f] and the cache
    folder. *)
Lemma minify_file_other f e g :
  g ≠ f ∨ kind_of (dir e !! g) ≠ Regular →
  g ≠ tmp ∨ is_dir (dir e !! tmp) = false →
  dir (run (minify_file f) e) !! g = dir e !! g.
Proof.
  intros Hgf Hg. rewrite minify_file_dir.
  destruct (dir e !! f) as [[c|?]|] eqn:Hf; try done.
  assert (g ≠ f) by (destruct Hgf as [?|Hk]; [done|]; intros ->; by rewrite Hf in Hk).
  destruct (is_dir (dir e !! tmp)) eqn:Ht.
  - destruct Hg as [Hg|]; [|done].
    destruct (cache_of (dir e) !! f) as [[y|E]|]; [| destruct (is_dir (E !! f)) |];
      rewrite ?lookup_insert_ne by done; done.
  - by rewrite lookup_insert_ne by done.
Qed.

(** A turn for [f] leaves the cached copies of the other names alone. *)
Lemma minify_file_cache_other f e g :
  g ≠ f → cache_of (dir (run (minify_file f) e)) !! g = cache_of (dir e) !! g.
Proof.
  intros Hgf. rewrite minify_file_dir.
  destruct (dir e !! f) as [[c|?]|] eqn:Hf; try done.
  destruct (is_dir (dir e !! tmp)) eqn:Ht.
  - assert (f ≠ tmp) by (intros ->; by rewrite Hf in Ht).
    destruct (cache_of (dir e) !! f) as [[y|E]|]; [| destruct (is_dir (E !! f)) |];
      rewrite ?cache_of_insert_ne by done;
      rewrite ?cache_of_insert_tmp, ?lookup_insert_ne by done; done.
  - rewrite (cache_of_not_dir (dir e)) by done.
    destruct (decide (f = tmp)) as [->|].
    + rewrite cache_of_not_dir; [done|]. by rewrite lookup_insert_eq.
    + rewrite cache_of_insert_ne by done. by rewrite cache_of_not_dir.
Qed.

(** The cache folder is never copied into itself. *)
Lemma minify_file_cache_tmp f e :
  cache_of (dir (run (minify_file f) e)) !! tmp = cache_of (dir e) !! tmp.
Proof.
  destruct (decide (tmp = f)) as [<-|]; [|by apply minify_file_cache_other].
  rewrite minify_file_dir.
  destruct (dir e !! tmp) as [[c|?]|] eqn:Hf; try done. cbn [is_dir].
  rewrite (cache_of_not_dir (dir e)) by (by rewrite Hf).
  rewrite cache_of_not_dir; [done|]. by rewrite lookup_insert_eq.
Qed.

(** A turn for a regular file [f] whose backup path is free or a regular
    file: the old content goes to the cache, the filtered content to
    [f]. *)
Lemma minify_file_hit f e c :
  dir e !! f = Some (File c) → is_dir (dir e !! tmp) = true →
  is_dir (cache_of (dir e) !! f) = false →
  dir (run (minify_file f) e) !! f = Some (File (pipeline c)) ∧
  cache_of (dir (run (minify_file f) e)) !! f = Some (File c).
Proof.
  intros Hf Ht Hc. rewrite minify_file_dir, Hf, Ht.
  assert (f ≠ tmp) by (intros ->; by rewrite Hf in Ht).
  destruct (cache_of (dir e) !! f) as [[y|E]|]; try done;
    rewrite lookup_insert_eq, cache_of_insert_ne, cache_of_insert_tmp by done;
    by rewrite lookup_insert_eq.
Qed.

(** After a turn for a regular file [f], [f] holds filtered content. *)
Lemma minify_file_clean f e :
  kind_of (dir e !! f) = Regular →
  ∃ c, dir (run (minify_file f) e) !! f = Some (File (pipeline c)).
Proof.
  intros Hk. rewrite minify_file_dir.
  destruct (dir e !! f) as [[c|?]|] eqn:Hf; try done.
  destruct (is_dir (dir e !! tmp)).
  - destruct (cache_of (dir e) !! f) as [[y|E]|];
      rewrite lookup_insert_eq; first [by exists c | by exists []].
  - rewrite lookup_insert_eq. by exists [].
Qed.

Lemma unminify_file_kind f e g :
  kind_of (dir (run (unminify_file f) e) !! g) = kind_of (dir e !! g).
Proof.
  rewrite unminify_file_dir.
  destruct (dir e !! f) as [[x|?]|] eqn:Hf; try done.
  destruct (cache_of (dir e) !! f) as [[c|?]|]; try done.
  destruct (decide (g = f)) as [->|];
    [by rewrite lookup_insert_eq, Hf | by rewrite lookup_insert_ne by done].
Qed.

(** A turn of [unminify] for [f] changes at most the regular file [f]. *)
Lemma unminify_file_other f e g :
  g ≠ f ∨ kind_of (dir e !! g) ≠ Regular →
  dir (run (unminify_file f) e) !! g = dir e !! g.
Proof.
  intros Hg. rewrite unminify_file_dir.
  destruct (dir e !! f) as [[x|?]|] eqn:Hf; try done.
  destruct (cache_of (dir e) !! f) as [[c|?]|]; try done.
  destruct (decide (g = f)) as [->|]; [|by rewrite lookup_insert_ne by done].
  destruct Hg as [?|Hg]; [done|]. by rewrite Hf in Hg.
Qed.

Lemma unminify_file_hit f e c :
  kind_of (dir e !! f) = Regular → cache_of (dir e) !! f = Some (File c) →
  dir (run (unminify_file f) e) !! f = Some (File c).
Proof.
  intros Hk Hc. rewrite unminify_file_dir, Hc.
  destruct (dir e !! f) as [[x|?]|]; try done. by rewrite lookup_insert_eq.
Qed.

End step_facts.

(** ** The loops and the function bodies *)

Section loop_facts.
Import Pipeline.
Implicit Types (D C : gmap string node) (e : env) (f g : string).
Implicit Types (ws : list string) (body : string → cmd unit).

Lemma run_bind {A} (m : cmd A) (k : A → cmd unit) e :
  run (m ≫= k) e = run (k (m e).1) (m e).2.
Proof. unfold run, mbind, cmd_bind. by destruct (m e). Qed.

Lemma run_for_in_cons body f ws e :
  run (for_in (f :: ws) body) e = run (for_in ws body) (run (body f) e).
Proof. cbn [for_in]. by rewrite run_bind. Qed.

Lemma run_for_in_app body ws1 ws2 e :
  run (for_in (ws1 ++ ws2) body) e =
  run (for_in ws2 body) (run (for_in ws1 body) e).
Proof.
  revert e. induction ws1 as [|f ws1 IH]; intros e; [done|].
  cbn [app]. by rewrite !run_for_in_cons, IH.
Qed.

(** A property kept by every turn is kept by the loop. *)
Lemma for_in_invariant (P : env → Prop) body ws e :
  (∀ f e', f ∈ ws → P e' → P (run (body f) e')) →
  P e → P (run (for_in ws body) e).
Proof.
  revert e. induction ws as [|f ws IH]; intros e Hstep He; [done|].
  rewrite run_for_in_cons. apply IH.
  - intros g e' Hg. apply Hstep. by right.
  - apply Hstep; [by left | done].
Qed.

Lemma kind_is_dir (o o' : option node) :
  kind_of o = kind_of o' → is_dir o = is_dir o'.
Proof. by destruct o as [[|]|], o' as [[|]|]. Qed.

Lemma kind_is_Some (o o' : option node) :
  kind_of o = kind_of o' → is_Some o ↔ is_Some o'.
Proof.
  destruct o as [[|]|], o' as [[|]|]; try done; intros _;
    split; intros; by eexists.
Qed.

Lemma kind_regular (o : option node) :
  kind_of o = Regular ↔ ∃ c, o = Some (File c).
Proof. destruct o as [[c|]|]; split; try done; [by exists c | by intros [??] ..]. Qed.

(** *** The loop of [minify] *)

Lemma minify_loop_kind ws e g :
  kind_of (dir (run (for_in ws minify_file) e) !! g) = kind_of (dir e !! g).
Proof.
  apply (for_in_invariant (λ e', kind_of (dir e' !! g) = kind_of (dir e !! g)));
    [|done].
  intros f e' _ <-. apply minify_file_kind.
Qed.

(** A name that is not among the words keeps its entry. *)
Lemma minify_loop_other ws e g :
  g ∉ ws ∨ kind_of (dir e !! g) ≠ Regular →
  g ≠ tmp ∨ is_dir (dir e !! tmp) = false →
  dir (run (for_in ws minify_file) e) !! g = dir e !! g.
Proof.
  intros Hg Ht.
  apply (for_in_invariant (λ e', dir e' !! g = dir e !! g ∧
                                 is_dir (dir e' !! tmp) = is_dir (dir e !! tmp)));
    [|done].
  intros f e' Hf [IH1 IH2]. split.
  - rewrite <- IH1. apply minify_file_other; [|by rewrite IH2].
    rewrite IH1. destruct Hg as [Hg|Hg]; [left; by intros -> | by right].
  - rewrite <- IH2. apply kind_is_dir, minify_file_kind.
Qed.

Lemma minify_loop_cache_other ws e g :
  g ∉ ws →
  cache_of (dir (run (for_in ws minify_file) e)) !! g = cache_of (dir e) !! g.
Proof.
  intros Hg.
  apply (for_in_invariant (λ e', cache_of (dir e') !! g = cache_of (dir e) !! g));
    [|done].
  intros f e' Hf <-. apply minify_file_cache_other. by intros ->.
Qed.

Lemma minify_loop_cache_tmp ws e :
  cache_of (dir (run (for_in ws minify_file) e)) !! tmp = cache_of (dir e) !! tmp.
Proof.
  apply (for_in_invariant (λ e', cache_of (dir e') !! tmp = cache_of (dir e) !! tmp));
    [|done].
  intros f e' _ <-. apply minify_file_cache_tmp.
Qed.

(** A regular file named by exactly one word is backed up and filtered
    once. *)
Lemma minify_loop_once ws e f c :
  NoDup ws → f ∈ ws →
  dir e !! f = Some (File c) → is_dir (dir e !! tmp) = true →
  is_dir (cache_of (dir e) !! f) = false →
  dir (run (for_in ws minify_file) e) !! f = Some (File (pipeline c)) ∧
  cache_of (dir (run (for_in ws minify_file) e)) !! f = Some (File c).
Proof.
  intros Hnd Hin Hf Ht Hc.
  assert (Hft : f ≠ tmp) by (intros ->; by rewrite Hf in Ht).
  apply list_elem_of_split in Hin as (l1 & l2 & ->).
  apply NoDup_app in Hnd as (_ & Hl1 & [Hl2 _]%NoDup_cons).
  assert (Hf1 : f ∉ l1). { intros H. apply (Hl1 f H). by left. }
  rewrite run_for_in_app, run_for_in_cons.
  set (e1 := run (for_in l1 minify_file) e).
  destruct (minify_file_hit f e1 c) as [H1 H2].
  - unfold e1. rewrite minify_loop_other by auto. done.
  - unfold e1. rewrite <- Ht. apply kind_is_dir, minify_loop_kind.
  - unfold e1. by rewrite minify_loop_cache_other.
  - split.
    + rewrite minify_loop_other by auto. done.
    + by rewrite minify_loop_cache_other.
Qed.

(** Whatever else happens, a regular file named by a word ends up with
    filtered content. *)
Lemma minify_loop_clean ws e f :
  f ∈ ws → kind_of (dir e !! f) = Regular →
  ∃ c, dir (run (for_in ws minify_file) e) !! f = Some (File (pipeline c)).
Proof.
  intros Hin Hk. apply list_elem_of_split in Hin as (l1 & l2 & ->).
  rewrite run_for_in_app, run_for_in_cons.
  set (e1 := run (for_in l1 minify_file) e).
  apply (for_in_invariant
           (λ e', ∃ c, dir e' !! f = Some (File (pipeline c)))).
  - intros g e' _ [c Hc]. destruct (decide (g = f)) as [->|Hne].
    + apply minify_file_clean. by rewrite Hc.
    + exists c. rewrite <- Hc. apply minify_file_other; [by left|].
      destruct (decide (f = tmp)) as [->|]; [right | by left].
      by rewrite Hc.
  - apply minify_file_clean. unfold e1. by rewrite minify_loop_kind.
Qed.

(** *** The body of [minify] *)

(** The directory once [[ ! -d .tmp ] && mkdir .tmp] has run. *)
Lemma mkdir_tmp_dir e :
  dir (run (if_then (test_not (test_d tmp)) (mkdir tmp)) e) =
  match dir e !! tmp with
  | None => <[tmp := Dir ∅]> (dir e)
  | Some _ => dir e
  end.
Proof.
  destruct e as [D l]. unfold run, if_then, test_not, test_d, mkdir. cbn.
  by destruct (D !! tmp) as [[|]|].
Qed.

Lemma minify_here_loop e :
  let e1 := run (if_then (test_not (test_d tmp)) (mkdir tmp)) e in
  run minify_here e = run (for_in (ls_words (dir e1)) minify_file) e1.
Proof. unfold minify_here. by rewrite !run_bind. Qed.

Lemma mkdir_tmp_lookup e g :
  g ≠ tmp →
  dir (run (if_then (test_not (test_d tmp)) (mkdir tmp)) e) !! g = dir e !! g.
Proof.
  intros. rewrite mkdir_tmp_dir.
  destruct (dir e !! tmp); [done | by rewrite lookup_insert_ne].
Qed.

Lemma mkdir_tmp_cache e :
  cache_of (dir (run (if_then (test_not (test_d tmp)) (mkdir tmp)) e)) =
  cache_of (dir e).
Proof.
  rewrite mkdir_tmp_dir. destruct (dir e !! tmp) eqn:Ht; [done|].
  rewrite cache_of_insert_tmp. unfold cache_of. by rewrite Ht.
Qed.

Lemma mkdir_tmp_is_dir e :
  kind_of (dir e !! tmp) ≠ Regular →
  is_dir (dir (run (if_then (test_not (test_d tmp)) (mkdir tmp)) e) !! tmp) = true.
Proof.
  intros. rewrite mkdir_tmp_dir.
  destruct (dir e !! tmp) as [[|]|] eqn:Ht; rewrite ?lookup_insert_eq, ?Ht; done.
Qed.

Lemma hidden_tmp : hidden tmp = true.
Proof. done. Qed.

(** Creating the cache folder does not change the listing. *)
Lemma mkdir_tmp_words e w :
  w ∈ ls_words (dir (run (if_then (test_not (test_d tmp)) (mkdir tmp)) e)) ↔
  w ∈ ls_words (dir e).
Proof.
  apply ls_words_same_names. intros n Hn.
  rewrite mkdir_tmp_lookup; [done|]. intros ->. by rewrite hidden_tmp in Hn.
Qed.

Lemma ls_words_Permutation D D' :
  (∀ n, hidden n = false → is_Some (D' !! n) ↔ is_Some (D !! n)) →
  ls_words D' ≡ₚ ls_words D.
Proof.
  intros H. rewrite !ls_words_bind. apply bind_Permutation.
  apply NoDup_Permutation; [apply NoDup_ls .. |].
  intros n. rewrite !elem_of_ls. split; intros [Hn Hh]; (split; [|done]);
    by apply (H n Hh).
Qed.

Lemma mkdir_tmp_NoDup e :
  NoDup (ls_words (dir e)) →
  NoDup (ls_words (dir (run (if_then (test_not (test_d tmp)) (mkdir tmp)) e))).
Proof.
  intros Hnd. erewrite ls_words_Permutation; [exact Hnd|].
  intros n Hn. rewrite mkdir_tmp_lookup; [done|].
  intros ->. by rewrite hidden_tmp in Hn.
Qed.

(** Entries other than [.tmp] keep their kind. *)
Lemma minify_here_kind e g :
  g ≠ tmp → kind_of (dir (run minify_here e) !! g) = kind_of (dir e !! g).
Proof.
  intros. rewrite minify_here_loop. cbv zeta.
  by rewrite minify_loop_kind, mkdir_tmp_lookup.
Qed.

(** Unless [.tmp] is a regular file, it is a directory afterwards. *)
Lemma minify_here_tmp e :
  kind_of (dir e !! tmp) ≠ Regular →
  is_dir (dir (run minify_here e) !! tmp) = true.
Proof.
  intros. rewrite minify_here_loop. cbv zeta.
  rewrite <- (mkdir_tmp_is_dir e) by done. apply kind_is_dir, minify_loop_kind.
Qed.

Lemma minify_here_other e g :
  g ≠ tmp → g ∉ ls_words (dir e) ∨ kind_of (dir e !! g) ≠ Regular →
  dir (run minify_here e) !! g = dir e !! g.
Proof.
  intros Ht Hg. rewrite minify_here_loop. cbv zeta.
  rewrite minify_loop_other; [by apply mkdir_tmp_lookup | | by left].
  rewrite mkdir_tmp_words, mkdir_tmp_lookup by done. done.
Qed.

Lemma minify_here_cache_other e g :
  g ∉ ls_words (dir e) →
  cache_of (dir (run minify_here e)) !! g = cache_of (dir e) !! g.
Proof.
  intros Hg. rewrite minify_here_loop. cbv zeta.
  rewrite minify_loop_cache_other; [by rewrite mkdir_tmp_cache|].
  by rewrite mkdir_tmp_words.
Qed.

Lemma minify_here_cache_tmp e :
  cache_of (dir (run minify_here e)) !! tmp = cache_of (dir e) !! tmp.
Proof.
  rewrite minify_here_loop. cbv zeta.
  by rewrite minify_loop_cache_tmp, mkdir_tmp_cache.
Qed.

Lemma minify_here_once e f c :
  NoDup (ls_words (dir e)) → f ∈ ls_words (dir e) →
  dir e !! f = Some (File c) → kind_of (dir e !! tmp) ≠ Regular →
  is_dir (cache_of (dir e) !! f) = false →
  dir (run minify_here e) !! f = Some (File (pipeline c)) ∧
  cache_of (dir (run minify_here e)) !! f = Some (File c).
Proof.
  intros Hnd Hin Hf Ht Hc. rewrite minify_here_loop. cbv zeta.
  assert (f ≠ tmp) by (intros ->; by rewrite Hf in Ht).
  apply minify_loop_once.
  - by apply mkdir_tmp_NoDup.
  - by apply mkdir_tmp_words.
  - by rewrite mkdir_tmp_lookup.
  - by apply mkdir_tmp_is_dir.
  - by rewrite mkdir_tmp_cache.
Qed.

Lemma minify_here_clean e f :
  f ∈ ls_words (dir e) → kind_of (dir e !! f) = Regular →
  ∃ c, dir (run minify_here e) !! f = Some (File (pipeline c)).
Proof.
  intros Hin Hk. rewrite minify_here_loop. cbv zeta.
  apply minify_loop_clean; [by apply mkdir_tmp_words|].
  rewrite mkdir_tmp_dir. destruct (dir e !! tmp) eqn:Ht; [done|].
  rewrite lookup_insert_ne; [done|]. intros <-. by rewrite Ht in Hk.
Qed.

(** The listing is the same before and after [minify]. *)
Lemma minify_here_names e n :
  hidden n = false →
  is_Some (dir (run minify_here e) !! n) ↔ is_Some (dir e !! n).
Proof.
  intros Hn. apply kind_is_Some, minify_here_kind.
  intros ->. by rewrite hidden_tmp in Hn.
Qed.

(** *** The loop and the body of [unminify] *)

Lemma unminify_loop_kind ws e g :
  kind_of (dir (run (for_in ws unminify_file) e) !! g) = kind_of (dir e !! g).
Proof.
  apply (for_in_invariant (λ e', kind_of (dir e' !! g) = kind_of (dir e !! g)));
    [|done].
  intros f e' _ <-. apply unminify_file_kind.
Qed.

(** The loop changes regular files named by a word, and nothing else. *)
Lemma unminify_loop_other ws e g :
  g ∉ ws ∨ kind_of (dir e !! g) ≠ Regular →
  dir (run (for_in ws unminify_file) e) !! g = dir e !! g.
Proof.
  intros Hg.
  apply (for_in_invariant (λ e', dir e' !! g = dir e !! g)); [|done].
  intros f e' Hf IH. rewrite <- IH. apply unminify_file_other.
  rewrite IH. destruct Hg as [Hg|Hg]; [left; by intros -> | by right].
Qed.

Lemma unminify_loop_cache ws e :
  cache_of (dir (run (for_in ws unminify_file) e)) = cache_of (dir e).
Proof.
  destruct (is_dir (dir e !! tmp)) eqn:Ht.
  - unfold cache_of. rewrite unminify_loop_other; [done|].
    right. by destruct (dir e !! tmp) as [[|]|].
  - rewrite !cache_of_not_dir; [done..|].
    rewrite <- Ht. apply kind_is_dir, unminify_loop_kind.
Qed.

(** A regular file named by a word and having a regular cached copy gets
    that copy. *)
Lemma unminify_loop_hit ws e f c :
  kind_of (dir e !! f) = Regular → cache_of (dir e) !! f = Some (File c) →
  f ∈ ws ∨ dir e !! f = Some (File c) →
  dir (run (for_in ws unminify_file) e) !! f = Some (File c).
Proof.
  revert e. induction ws as [|w ws IH]; intros e Hk Hc Hin.
  - destruct Hin as [Hin|Hin]; [by apply elem_of_nil in Hin | done].
  - rewrite run_for_in_cons. apply IH.
    + by rewrite unminify_file_kind.
    + rewrite <- Hc. f_equal.
      pose proof (unminify_loop_cache [w] e) as Hw.
      rewrite run_for_in_cons in Hw. exact Hw.
    + destruct (decide (w = f)) as [->|Hne].
      * right. by apply unminify_file_hit.
      * rewrite unminify_file_other by (by left).
        destruct Hin as [Hin|Hin]; [left | by right].
        apply elem_of_cons in Hin as [?|?]; [congruence | done].
Qed.

(** Without a cache folder the loop changes nothing. *)
Lemma unminify_loop_no_cache ws e :
  is_dir (dir e !! tmp) = false →
  dir (run (for_in ws unminify_file) e) = dir e.
Proof.
  intros Ht. apply (for_in_invariant (λ e', dir e' = dir e)); [|done].
  intros f e' _ IH. rewrite unminify_file_dir, IH.
  rewrite (cache_of_not_dir (dir e)), lookup_empty by done.
  by destruct (dir e !! f) as [[|]|].
Qed.

Lemma rm_r_dir n e :
  dir (run (rm_r n ;; mret ()) e) =
  if is_dir (dir e !! n) then delete n (dir e) else dir e.
Proof.
  destruct e as [D l]. unfold run, mbind, cmd_bind, rm_r. cbn.
  by destruct (is_dir (D !! n)).
Qed.

Lemma unminify_here_loop e :
  run unminify_here e =
  run (rm_r tmp ;; mret ()) (run (for_in (ls_words (dir e)) unminify_file) e).
Proof. unfold unminify_here. by rewrite !run_bind. Qed.

(** [rm -r .tmp/] removes the cache folder when there is one. *)
Lemma unminify_here_tmp e :
  dir (run unminify_here e) !! tmp =
  if is_dir (dir e !! tmp) then None else dir e !! tmp.
Proof.
  rewrite unminify_here_loop, rm_r_dir.
  rewrite (kind_is_dir _ _ (unminify_loop_kind (ls_words (dir e)) e tmp)).
  destruct (is_dir (dir e !! tmp)) eqn:Ht; [by rewrite lookup_delete_eq|].
  by rewrite unminify_loop_no_cache.
Qed.

Lemma unminify_here_lookup e g :
  g ≠ tmp →
  dir (run unminify_here e) !! g =
  dir (run (for_in (ls_words (dir e)) unminify_file) e) !! g.
Proof.
  intros. rewrite unminify_here_loop, rm_r_dir.
  destruct (is_dir _); [by rewrite lookup_delete_ne | done].
Qed.

Lemma unminify_here_other e g :
  g ≠ tmp → g ∉ ls_words (dir e) ∨ kind_of (dir e !! g) ≠ Regular →
  dir (run unminify_here e) !! g = dir e !! g.
Proof. intros. by rewrite unminify_here_lookup, unminify_loop_other. Qed.

Lemma unminify_here_hit e f c :
  f ∈ ls_words (dir e) → kind_of (dir e !! f) = Regular →
  cache_of (dir e) !! f = Some (File c) →
  dir (run unminify_here e) !! f = Some (File c).
Proof.
  intros Hin Hk Hc.
  assert (f ≠ tmp).
  { intros ->. unfold cache_of in Hc.
    destruct (dir e !! tmp) as [[|]|]; by rewrite ?lookup_empty in Hc. }
  rewrite unminify_here_lookup by done. apply unminify_loop_hit; auto.
Qed.

(** Without a cache folder the directory stays as it is and [rm]
    complains. *)
Lemma unminify_here_no_cache e :
  is_dir (dir e !! tmp) = false →
  dir (run unminify_here e) = dir e ∧
  ∃ l, err (run unminify_here e) = l ++ [rm_failed tmp].
Proof.
  intros Ht. rewrite unminify_here_loop.
  set (e1 := run (for_in (ls_words (dir e)) unminify_file) e).
  assert (H1 : dir e1 = dir e) by by apply unminify_loop_no_cache.
  split.
  - rewrite rm_r_dir, H1. by rewrite Ht.
  - destruct e1 as [D1 l1]. cbn in H1. subst D1.
    unfold run, mbind, cmd_bind, rm_r. cbn. rewrite Ht. cbn. by exists l1.
Qed.

End loop_facts.

(** ** Paths in the tree *)

Section tree_facts.
Implicit Types (p q : list string) (R N D : gmap string node).

(** Reading back what was put. *)
Lemma dir_at_set_dir p N R :
  is_Some (dir_at p R) → dir_at p (set_dir p N R) = Some N.
Proof.
  revert R. induction p as [|x p IH]; intros R; [done|]. cbn.
  destruct (R !! x) as [[|E]|] eqn:Hx; try by intros [??].
  intros H. rewrite lookup_insert_eq. by apply IH.
Qed.

(** Putting back what was there. *)
Lemma set_dir_id p D R : dir_at p R = Some D → set_dir p D R = R.
Proof.
  revert R. induction p as [|x p IH]; intros R; cbn; [congruence|].
  destruct (R !! x) as [[|E]|] eqn:Hx; try done.
  intros H. rewrite (IH _ H). by apply insert_id.
Qed.

Lemma set_dir_set_dir p N N' R :
  set_dir p N' (set_dir p N R) = set_dir p N' R.
Proof.
  revert R. induction p as [|x p IH]; intros R; [done|]. cbn.
  destruct (R !! x) as [[|E]|] eqn:Hx; cbn; rewrite ?Hx; try done.
  by rewrite lookup_insert_eq, insert_insert_eq, IH.
Qed.

(** A directory above the one replaced is still a directory. *)
Lemma dir_at_above p q N R :
  is_Some (dir_at (p ++ q) R) → is_Some (dir_at p (set_dir (p ++ q) N R)).
Proof.
  revert R. induction p as [|x p IH]; intros R; [by eexists|]. cbn.
  destruct (R !! x) as [[|E]|] eqn:Hx; try by intros [??].
  intros H. rewrite lookup_insert_eq. by apply IH.
Qed.

(** Replacing the directory at [p] by one with the same subdirectories
    keeps every directory of the tree in place, those below [p/.tmp]
    excepted. *)
Lemma dir_at_kept p q N D R :
  dir_at p R = Some D →
  (∀ n, n ≠ tmp → is_dir (D !! n) = true → N !! n = D !! n) →
  ¬ (p ++ [tmp]) `prefix_of` q →
  is_Some (dir_at q R) → is_Some (dir_at q (set_dir p N R)).
Proof.
  intros HD Hkeep. revert q R HD.
  induction p as [|y p IH]; intros q R HD Hq.
  - cbn in HD. injection HD as ->. cbn.
    destruct q as [|x q]; [by eexists|]. cbn.
    destruct (D !! x) as [[|E]|] eqn:Hx; try by intros [??].
    assert (x ≠ tmp). { intros ->. apply Hq. by exists q. }
    rewrite Hkeep, Hx; [done.. |]. by rewrite Hx.
  - cbn in HD. cbn. destruct (R !! y) as [[|E]|] eqn:Hy; try done.
    destruct q as [|x q]; [by eexists|]. cbn.
    destruct (decide (x = y)) as [->|Hne].
    + rewrite Hy, lookup_insert_eq. apply IH; [done|].
      intros [k ->]. apply Hq. by exists k.
    + by rewrite lookup_insert_ne.
Qed.

End tree_facts.

(** ** Diagnostics are only ever added *)

Section stderr_facts.

Lemma appends_ret {A} (a : A) : appends (mret a).
Proof. by intros e. Qed.

Lemma appends_bind {A B} (m : cmd A) (k : A → cmd B) :
  appends m → (∀ a, appends (k a)) → appends (m ≫= k).
Proof.
  intros Hm Hk e. unfold mbind, cmd_bind.
  specialize (Hm e). destruct (m e) as [a e1]. cbn in Hm.
  etrans; [exact Hm | apply Hk].
Qed.

Lemma appends_complain d : appends (complain d).
Proof. intros e. by apply prefix_app_r. Qed.

Lemma appends_put_dir D : appends (put_dir D).
Proof. by intros e. Qed.

Lemma appends_test_f n : appends (test_f n).
Proof. by intros e. Qed.

Lemma appends_test_d n : appends (test_d n).
Proof. by intros e. Qed.

Lemma appends_test_not c : appends c → appends (test_not c).
Proof. intros H e. unfold test_not. specialize (H e). by destruct (c e). Qed.

Lemma appends_if_then {A} c (m : cmd A) :
  appends c → appends m → appends (if_then c m).
Proof.
  intros Hc Hm e. unfold if_then. specialize (Hc e).
  destruct (c e) as [[] e1]; cbn in *; [|done].
  etrans; [exact Hc | apply Hm].
Qed.

Lemma appends_mkdir n : appends (mkdir n).
Proof.
  intros e. unfold mkdir.
  destruct (dir e !! n); [apply appends_complain | apply appends_put_dir].
Qed.

Lemma appends_cp src dst : appends (cp src dst).
Proof.
  intros e. unfold cp.
  destruct (resolve src (dir e)) as [[c|]|]; try apply appends_complain.
  destruct (if decide (src = dst) then _ else _);
    [apply appends_put_dir | apply appends_complain].
Qed.

Lemma appends_cat p : appends (cat p).
Proof.
  intros e. unfold cat.
  destruct (resolve p (dir e)) as [[c|]|]; try done; apply appends_complain.
Qed.

Lemma appends_redirect n out : appends (redirect n out).
Proof.
  intros e. unfold redirect.
  destruct (is_dir _); [apply appends_complain | apply appends_put_dir].
Qed.

Lemma appends_rm_r n : appends (rm_r n).
Proof.
  intros e. unfold rm_r.
  destruct (is_dir _); [apply appends_put_dir | apply appends_complain].
Qed.

Lemma appends_dollar_ls : appends dollar_ls.
Proof. by intros e. Qed.

Lemma appends_for_in ws body :
  (∀ f, appends (body f)) → appends (for_in ws body).
Proof.
  intros H. induction ws as [|f ws IH]; [apply appends_ret|].
  cbn [for_in]. apply appends_bind; [apply H | done].
Qed.

Lemma appends_minify_here : appends minify_here.
Proof.
  unfold minify_here.
  apply appends_bind;
    [apply appends_if_then;
      [apply appends_test_not, appends_test_d | apply appends_mkdir]|].
  intros _. apply appends_bind; [apply appends_dollar_ls|]. intros ws.
  apply appends_for_in. intros f. apply appends_if_then; [apply appends_test_f|].
  apply appends_bind; [apply appends_cp|]. intros _.
  apply appends_bind; [apply appends_cat|]. intros out. apply appends_redirect.
Qed.

Lemma appends_unminify_here : appends unminify_here.
Proof.
  unfold unminify_here. apply appends_bind; [apply appends_dollar_ls|]. intros ws.
  apply appends_bind.
  - apply appends_for_in. intros f.
    apply appends_if_then; [apply appends_test_f | apply appends_cp].
  - intros _. apply appends_bind; [apply appends_rm_r|]. intros _.
    apply appends_ret.
Qed.

End stderr_facts.

(** ** A call of either function *)

Section call_facts.
Implicit Types (s : shell) (m : cmd unit) (arg : string).

Lemma cd_minus_stderr s : stderr s `prefix_of` stderr (cd_minus s).2.
Proof.
  unfold cd_minus. destruct (oldpwd s) as [p|]; cbn; [|done].
  destruct (dir_at p (fs s)); cbn; [done | by apply prefix_app_r].
Qed.

Lemma cd_minus_fs s : fs (cd_minus s).2 = fs s.
Proof.
  unfold cd_minus. destruct (oldpwd s) as [p|]; cbn; [|done].
  by destruct (dir_at p (fs s)).
Qed.

(** The directory exists: the function works there, comes back, and
    its status is zero. *)
Lemma call_there m arg s D :
  dir_at (cwd s ++ Words.path_of arg) (fs s) = Some D →
  let p := cwd s ++ Words.path_of arg in
  let e := run m (Env D (stderr s)) in
  (cd arg ;; in_cwd m ;; cd_minus) s =
  (Zero, Shell (set_dir p (dir e) (fs s)) (cwd s) (Some p) (err e)).
Proof.
  intros HD. cbv zeta. unfold mbind, sh_bind, cd. rewrite HD.
  unfold in_cwd. cbn [cwd fs stderr oldpwd]. rewrite HD.
  unfold cd_minus. cbn [cwd fs stderr oldpwd].
  set (e := run m (Env D (stderr s))).
  destruct (dir_at_above (cwd s) (Words.path_of arg) (dir e) (fs s)) as [D0 HD0].
  { by rewrite HD. }
  by rewrite HD0.
Qed.

(** The directory is missing: [cd] complains, and the function works in
    the directory the shell was in. *)
Lemma call_elsewhere m arg s D0 :
  dir_at (cwd s ++ Words.path_of arg) (fs s) = None →
  dir_at (cwd s) (fs s) = Some D0 →
  let e := run m (Env D0 (stderr s ++ [cd_failed arg])) in
  (cd arg ;; in_cwd m ;; cd_minus) s =
  cd_minus (Shell (set_dir (cwd s) (dir e) (fs s)) (cwd s) (oldpwd s) (err e)).
Proof.
  intros Hp HD0. cbv zeta. unfold mbind, sh_bind, cd. rewrite Hp.
  unfold in_cwd. cbn [cwd fs stderr oldpwd]. by rewrite HD0.
Qed.

Lemma minify_there arg s D :
  dir_at (cwd s ++ Words.path_of arg) (fs s) = Some D →
  let p := cwd s ++ Words.path_of arg in
  let e := run minify_here (Env D (stderr s)) in
  minify arg s = (Zero, Shell (set_dir p (dir e) (fs s)) (cwd s) (Some p) (err e)).
Proof. apply call_there. Qed.

Lemma unminify_there arg s D :
  dir_at (cwd s ++ Words.path_of arg) (fs s) = Some D →
  let p := cwd s ++ Words.path_of arg in
  let e := run unminify_here (Env D (stderr s)) in
  unminify arg s = (Zero, Shell (set_dir p (dir e) (fs s)) (cwd s) (Some p) (err e)).
Proof. apply call_there. Qed.

Lemma entry_at_set_dir p n N R :
  is_Some (dir_at p R) → entry_at p n (set_dir p N R) = N !! n.
Proof. intros H. unfold entry_at. by rewrite dir_at_set_dir. Qed.

Lemma cached_at_set_dir p n N R :
  is_Some (dir_at p R) → cached_at p n (set_dir p N R) = cache_of N !! n.
Proof. intros H. unfold cached_at. by rewrite dir_at_set_dir. Qed.

End call_facts.

(** * The claims *)

Section roundtrip.
Import Pipeline.
Implicit Types (D : gmap string node) (s : shell) (arg f : string).

(** [unminify] undoes [minify] on a directory without a cache folder in
    which no word of the listing is repeated. *)
Lemma roundtrip_dir D l l' :
  D !! tmp = None → NoDup (ls_words D) →
  dir (run unminify_here (Env (dir (run minify_here (Env D l))) l')) = D.
Proof.
  intros Ht Hnd. set (e1 := run minify_here (Env D l)).
  assert (Hw : ∀ w, w ∈ ls_words (dir e1) ↔ w ∈ ls_words D).
  { intros w. apply ls_words_same_names. intros n Hn.
    by apply (minify_here_names (Env D l)). }
  apply map_eq. intros n. destruct (decide (n = tmp)) as [->|Hn].
  - rewrite unminify_here_tmp. cbn [dir].
    unfold e1. rewrite minify_here_tmp; [by rewrite Ht|].
    cbn [dir]. by rewrite Ht.
  - assert (Hskip : n ∉ ls_words D ∨ kind_of (D !! n) ≠ Regular →
                    dir (run unminify_here (Env (dir e1) l')) !! n = D !! n).
    { intros H. rewrite unminify_here_other; cbn [dir]; [| done |].
      - by apply (minify_here_other (Env D l)).
      - destruct H as [H|H]; [left; by rewrite Hw | right].
        unfold e1. by rewrite minify_here_kind. }
    destruct (decide (n ∈ ls_words D)) as [Hin|Hout]; [|apply Hskip; by left].
    destruct (D !! n) as [[c|E]|] eqn:Hc; [| apply Hskip; by right ..].
    destruct (minify_here_once (Env D l) n c) as [H1 H2]; try done.
    { cbn [dir]. by rewrite Ht. }
    { cbn [dir]. unfold cache_of. by rewrite Ht, lookup_empty. }
    apply unminify_here_hit; cbn [dir]; [by apply Hw | | done].
    fold e1 in H1. by rewrite H1.
Qed.

(** C1, amended.  Let the plain operand [arg] name a directory whose
    listing is plain, that has no entry [.tmp], and in whose listing,
    split at white space, no word occurs twice (as is the case when no
    listed name contains white space).  Then [minify arg] followed by
    [unminify arg] leaves the whole tree, and so the bytes of every file,
    exactly as it was. *)
Theorem minify_unminify_roundtrip s arg D :
  Words.plain_operand arg = true →
  dir_at (cwd s ++ Words.path_of arg) (fs s) = Some D →
  plain_listing D = true →
  D !! tmp = None →
  NoDup (ls_words D) →
  fs (unminify arg (minify arg s).2).2 = fs s.
Proof.
  intros _ HD _ Ht Hnd. rewrite (minify_there arg s D HD). cbv zeta. cbn [snd].
  set (p := cwd s ++ Words.path_of arg) in *.
  set (e1 := run minify_here (Env D (stderr s))).
  rewrite (unminify_there arg _ (dir e1)); cbn [cwd fs stderr snd].
  - fold p. rewrite set_dir_set_dir. apply set_dir_id. rewrite HD. f_equal.
    symmetry. by apply roundtrip_dir.
  - fold p. apply dir_at_set_dir. by rewrite HD.
Qed.

End roundtrip.

Section restore.
Implicit Types (D : gmap string node) (s : shell) (arg f : string).

(** C2, amended.  [unminify] walks the listing of the target directory,
    not that of the cache folder.  For a plain operand and a target whose
    listing is plain: a regular file of the target that is named by a word
    of the listing and has a regular cached copy is overwritten with that
    copy; a name that is absent from the target stays absent, whatever the
    cache folder holds. *)
Theorem unminify_restores_listed_files s arg D f c :
  Words.plain_operand arg = true →
  dir_at (cwd s ++ Words.path_of arg) (fs s) = Some D →
  plain_listing D = true →
  f ∈ ls_words D → kind_of (D !! f) = Regular →
  cache_of D !! f = Some (File c) →
  entry_at (cwd s ++ Words.path_of arg) f (fs (unminify arg s).2) = Some (File c) ∧
  ∀ n, D !! n = None →
       entry_at (cwd s ++ Words.path_of arg) n (fs (unminify arg s).2) = None.
Proof.
  intros _ HD _ Hin Hk Hc. rewrite (unminify_there arg s D HD). cbv zeta.
  cbn [snd fs]. split.
  - rewrite entry_at_set_dir by (by rewrite HD). by apply unminify_here_hit.
  - intros n Hn. rewrite entry_at_set_dir by (by rewrite HD).
    destruct (decide (n = tmp)) as [->|Hne].
    + rewrite unminify_here_tmp. cbn [dir]. by rewrite Hn.
    + rewrite unminify_here_other; cbn [dir]; [done | done |].
      right. by rewrite Hn.
Qed.

(** C5, amended.  When the target directory (plain operand, plain
    listing) has no cache folder, the tree is left as it was and the final
    [rm -r .tmp/] prints a diagnostic; but the call does not fail: its
    status is that of the closing [cd -], which is zero. *)
Theorem unminify_without_cache s arg D :
  Words.plain_operand arg = true →
  dir_at (cwd s ++ Words.path_of arg) (fs s) = Some D →
  plain_listing D = true →
  D !! tmp = None →
  (unminify arg s).1 = Zero ∧
  fs (unminify arg s).2 = fs s ∧
  ∃ l, stderr (unminify arg s).2 = l ++ [rm_failed tmp].
Proof.
  intros _ HD _ Ht. rewrite (unminify_there arg s D HD). cbv zeta.
  cbn [fst snd fs stderr].
  destruct (unminify_here_no_cache (Env D (stderr s))) as [H1 H2].
  { cbn [dir]. by rewrite Ht. }
  split_and!; [done | | done].
  rewrite H1. cbn [dir]. by apply set_dir_id.
Qed.

End restore.

Section minify_effect.
Import Pipeline.
Implicit Types (D : gmap string node) (s : shell) (arg f : string).




(** C9, amended.  In a directory with a plain listing, named by a plain
    operand, take a dot-prefixed name other than [.tmp] that is not a word
    of the listing (no listed name contains it between white space).
    [minify] leaves that entry as it is and puts no copy of it into the
    cache folder, and [unminify] leaves it as it is.  Nor does [minify]
    copy the cache folder into itself: what [.tmp/.tmp] names is as
    before. *)
Theorem hidden_entries_untouched s arg D n :
  Words.plain_operand arg = true →
  dir_at (cwd s ++ Words.path_of arg) (fs s) = Some D →
  plain_listing D = true →
  hidden n = true → n ≠ tmp → n ∉ ls_words D →
  (entry_at (cwd s ++ Words.path_of arg) n (fs (minify arg s).2) = D !! n ∧
   cached_at (cwd s ++ Words.path_of arg) n (fs (minify arg s).2) = cache_of D !! n ∧
   cached_at (cwd s ++ Words.path_of arg) tmp (fs (minify arg s).2)
     = cache_of D !! tmp) ∧
  entry_at (cwd s ++ Words.path_of arg) n (fs (unminify arg s).2) = D !! n.
Proof.
  intros _ HD _ _ Hne Hout. split.
  - rewrite (minify_there arg s D HD). cbv zeta. cbn [snd fs].
    rewrite entry_at_set_dir, !cached_at_set_dir by (by rewrite HD).
    split_and!.
    + rewrite minify_here_other; cbn [dir]; [done | done | by left].
    + by rewrite minify_here_cache_other.
    + by rewrite minify_here_cache_tmp.
  - rewrite (unminify_there arg s D HD). cbv zeta. cbn [snd fs].
    rewrite entry_at_set_dir by (by rewrite HD).
    rewrite unminify_here_other; cbn [dir]; [done | done | by left].
Qed.

(** C7, amended.  Run [minify] twice in a row, with a plain operand, on
    a directory with a plain listing whose entry [.tmp] is not a regular
    file.  The second call ends with status zero.  For every regular file that is named by exactly one word of
    the listing and whose backup path is not a directory, the cached
    copy after the second call is the content the first call left in the
    file: the original is gone. *)
Theorem minify_twice_caches_minified s arg D f c1 :
  Words.plain_operand arg = true →
  dir_at (cwd s ++ Words.path_of arg) (fs s) = Some D →
  plain_listing D = true →
  NoDup (ls_words D) → f ∈ ls_words D → kind_of (D !! f) = Regular →
  kind_of (D !! tmp) ≠ Regular → is_dir (cache_of D !! f) = false →
  entry_at (cwd s ++ Words.path_of arg) f (fs (minify arg s).2) = Some (File c1) →
  (minify arg (minify arg s).2).1 = Zero ∧
  cached_at (cwd s ++ Words.path_of arg) f (fs (minify arg (minify arg s).2).2)
    = Some (File c1).
Proof.
  intros _ HD _ Hnd Hin Hk Ht Hc. rewrite (minify_there arg s D HD). cbv zeta.
  cbn [snd fs]. set (p := cwd s ++ Words.path_of arg) in *.
  set (e1 := run minify_here (Env D (stderr s))).
  rewrite entry_at_set_dir by (by rewrite HD). intros H1.
  rewrite (minify_there arg _ (dir e1)); cbn [cwd fs stderr fst snd].
  2:{ fold p. apply dir_at_set_dir. by rewrite HD. }
  split; [done|]. fold p. rewrite cached_at_set_dir.
  2:{ rewrite dir_at_set_dir by (by rewrite HD). by eexists. }
  apply kind_regular in Hk as [c Hk].
  destruct (minify_here_once (Env D (stderr s)) f c) as [_ H2]; try done.
  fold e1 in H2.
  apply minify_here_once; cbn [dir].
  - erewrite ls_words_Permutation; [exact Hnd|].
    intros n Hn. by apply (minify_here_names (Env D (stderr s))).
  - eapply ls_words_same_names; [|exact Hin].
    intros n Hn. by apply (minify_here_names (Env D (stderr s))).
  - done.
  - pose proof (minify_here_tmp (Env D (stderr s)) Ht) as Hd. fold e1 in Hd.
    by destruct (dir e1 !! tmp) as [[|]|].
  - by rewrite H2.
Qed.

End minify_effect.

Section calls.
Implicit Types (D : gmap string node) (s : shell) (arg : string) (m : cmd unit).

Lemma call_elsewhere_effect m arg s D0 :
  appends m →
  dir_at (cwd s ++ Words.path_of arg) (fs s) = None →
  dir_at (cwd s) (fs s) = Some D0 →
  fs ((cd arg ;; in_cwd m ;; cd_minus) s).2 =
    set_dir (cwd s) (dir (run m (Env D0 (stderr s ++ [cd_failed arg])))) (fs s) ∧
  cd_failed arg ∈ stderr ((cd arg ;; in_cwd m ;; cd_minus) s).2.
Proof.
  intros Hm Hp HD0. rewrite (call_elsewhere m arg s D0 Hp HD0). cbv zeta.
  split; [by rewrite cd_minus_fs|].
  eapply elem_of_prefix; [|apply cd_minus_stderr]. cbn [stderr].
  eapply elem_of_prefix; [|apply Hm]. cbn [err].
  apply elem_of_app. right. by apply list_elem_of_singleton.
Qed.

(** C6, amended.  When the plain operand names no directory, [cd] prints
    a diagnostic and fails, but nothing is aborted: the commands of the
    function then run in the directory the shell was standing in (whose
    listing is assumed plain).  So [minify] filters every regular file
    named by a word of that directory's listing, and [unminify] removes
    that directory's cache folder. *)
Theorem missing_directory_runs_in_cwd s arg D0 :
  Words.plain_operand arg = true →
  dir_at (cwd s ++ Words.path_of arg) (fs s) = None →
  dir_at (cwd s) (fs s) = Some D0 →
  plain_listing D0 = true →
  (cd_failed arg ∈ stderr (minify arg s).2 ∧
   fs (minify arg s).2 =
     set_dir (cwd s)
       (dir (run minify_here (Env D0 (stderr s ++ [cd_failed arg])))) (fs s) ∧
   ∀ f, f ∈ ls_words D0 → kind_of (D0 !! f) = Regular →
        ∃ c, entry_at (cwd s) f (fs (minify arg s).2) = Some (File c) ∧ clean c) ∧
  (cd_failed arg ∈ stderr (unminify arg s).2 ∧
   fs (unminify arg s).2 =
     set_dir (cwd s)
       (dir (run unminify_here (Env D0 (stderr s ++ [cd_failed arg])))) (fs s) ∧
   (is_dir (D0 !! tmp) = true →
    entry_at (cwd s) tmp (fs (unminify arg s).2) = None)).
Proof.
  intros _ Hp HD0 _. split.
  - destruct (call_elsewhere_effect minify_here arg s D0) as [Hfs Herr];
      [apply appends_minify_here | done..|].
    split_and!; [done..|]. intros f Hin Hk. fold (minify arg s) in Hfs.
    rewrite Hfs, entry_at_set_dir by (by rewrite HD0).
    destruct (minify_here_clean (Env D0 (stderr s ++ [cd_failed arg])) f Hin Hk)
      as [c Hc].
    exists (Pipeline.pipeline c). split; [done | apply pipeline_clean].
  - destruct (call_elsewhere_effect unminify_here arg s D0) as [Hfs Herr];
      [apply appends_unminify_here | done..|].
    split_and!; [done..|]. intros Ht. fold (unminify arg s) in Hfs.
    rewrite Hfs, entry_at_set_dir by (by rewrite HD0).
    rewrite unminify_here_tmp. cbn [dir]. by rewrite Ht.
Qed.

(** A call on an existing directory succeeds, comes back, and keeps the
    directories of the tree, when the commands keep the subdirectories of
    the one they work in. *)
Lemma call_keeps m arg s :
  (∀ e g, g ≠ tmp → is_dir (dir e !! g) = true → dir (run m e) !! g = dir e !! g) →
  is_Some (dir_at (cwd s ++ Words.path_of arg) (fs s)) →
  ((cd arg ;; in_cwd m ;; cd_minus) s).1 = Zero ∧
  cwd ((cd arg ;; in_cwd m ;; cd_minus) s).2 = cwd s ∧
  ∀ q, ¬ ((cwd s ++ Words.path_of arg) ++ [tmp]) `prefix_of` q →
       is_Some (dir_at q (fs s)) →
       is_Some (dir_at q (fs ((cd arg ;; in_cwd m ;; cd_minus) s).2)).
Proof.
  intros Hm [D HD]. rewrite (call_there m arg s D HD). cbv zeta.
  cbn [fst snd cwd fs]. split_and!; [done..|].
  intros q Hq Hsome. eapply dir_at_kept; [exact HD | | done | done].
  intros n Hn Hd. by apply (Hm (Env D (stderr s))).
Qed.

Lemma minify_here_keeps e g :
  g ≠ tmp → is_dir (dir e !! g) = true →
  dir (run minify_here e) !! g = dir e !! g.
Proof.
  intros Hg Hd. apply minify_here_other; [done|]. right.
  by destruct (dir e !! g) as [[|]|].
Qed.

Lemma unminify_here_keeps e g :
  g ≠ tmp → is_dir (dir e !! g) = true →
  dir (run unminify_here e) !! g = dir e !! g.
Proof.
  intros Hg Hd. apply unminify_here_other; [done|]. right.
  by destruct (dir e !! g) as [[|]|].
Qed.

Lemma sh_bind_run {A B} (m1 : sh A) (k : A → sh B) s :
  (m1 ≫= k) s = k (m1 s).1 (m1 s).2.
Proof. unfold mbind, sh_bind. by destruct (m1 s). Qed.

(** Four calls in a row on the layout directories. *)
Lemma four_calls m s :
  (∀ e g, g ≠ tmp → is_dir (dir e !! g) = true → dir (run m e) !! g = dir e !! g) →
  is_Some (dir_at (cwd s ++ ["_layouts"]) (fs s)) →
  is_Some (dir_at (cwd s ++ ["_layouts"; "indexes"]) (fs s)) →
  is_Some (dir_at (cwd s ++ ["_layouts"; "indexes"; "category"]) (fs s)) →
  is_Some (dir_at (cwd s ++ ["_layouts"; "partials"]) (fs s)) →
  let script :=
    (cd "_layouts" ;; in_cwd m ;; cd_minus) ;;
    (cd "_layouts/indexes" ;; in_cwd m ;; cd_minus) ;;
    (cd "_layouts/indexes/category" ;; in_cwd m ;; cd_minus) ;;
    (cd "_layouts/partials" ;; in_cwd m ;; cd_minus) in
  (script s).1 = Zero ∧ cwd (script s).2 = cwd s.
Proof.
  intros Hm H1 H2 H3 H4 script. unfold script.
  assert (Hapart : ∀ (c a b : list string),
             (∀ k, a ++ [tmp] ++ k ≠ b) → ¬ ((c ++ a) ++ [tmp]) `prefix_of` (c ++ b)).
  { intros c a b Hab [k Hk]. rewrite <- !app_assoc in Hk.
    apply app_inv_head in Hk. by apply (Hab k). }
  rewrite (sh_bind_run (cd "_layouts" ;; in_cwd m ;; cd_minus)). cbv beta.
  destruct (call_keeps m "_layouts" s Hm H1) as (_ & Hc1 & K1).
  set (s1 := ((cd "_layouts" ;; in_cwd m ;; cd_minus) s).2) in *.
  assert (H2' : is_Some (dir_at (cwd s1 ++ ["_layouts"; "indexes"]) (fs s1))).
  { rewrite Hc1. apply K1; [|done]. by apply Hapart. }
  assert (H3' : is_Some (dir_at (cwd s1 ++ ["_layouts"; "indexes"; "category"]) (fs s1))).
  { rewrite Hc1. apply K1; [|done]. by apply Hapart. }
  assert (H4' : is_Some (dir_at (cwd s1 ++ ["_layouts"; "partials"]) (fs s1))).
  { rewrite Hc1. apply K1; [|done]. by apply Hapart. }
  clear K1 H1 H2 H3 H4.
  rewrite (sh_bind_run (cd "_layouts/indexes" ;; in_cwd m ;; cd_minus)). cbv beta.
  destruct (call_keeps m "_layouts/indexes" s1 Hm H2') as (_ & Hc2 & K2).
  set (s2 := ((cd "_layouts/indexes" ;; in_cwd m ;; cd_minus) s1).2) in *.
  assert (H3 : is_Some (dir_at (cwd s2 ++ ["_layouts"; "indexes"; "category"]) (fs s2))).
  { rewrite Hc2. apply K2; [|done]. by apply Hapart. }
  assert (H4 : is_Some (dir_at (cwd s2 ++ ["_layouts"; "partials"]) (fs s2))).
  { rewrite Hc2. apply K2; [|done]. by apply Hapart. }
  clear K2 H2' H3' H4'.
  rewrite (sh_bind_run (cd "_layouts/indexes/category" ;; in_cwd m ;; cd_minus)).
  cbv beta.
  destruct (call_keeps m "_layouts/indexes/category" s2 Hm H3) as (_ & Hc3 & K3).
  set (s3 := ((cd "_layouts/indexes/category" ;; in_cwd m ;; cd_minus) s2).2) in *.
  assert (H4' : is_Some (dir_at (cwd s3 ++ ["_layouts"; "partials"]) (fs s3))).
  { rewrite Hc3. apply K3; [|done]. by apply Hapart. }
  destruct (call_keeps m "_layouts/partials" s3 Hm H4') as (Hz & Hc4 & _).
  split; [done|]. by rewrite Hc4, Hc3, Hc2.
Qed.

(** A path that avoids the cache folders does not pass through one. *)
Lemma not_through_tmp (c q q' : list string) :
  tmp ∉ q' → ¬ ((c ++ q) ++ [tmp]) `prefix_of` (c ++ q').
Proof.
  intros Hq' [k Hk]. rewrite <- !app_assoc in Hk. apply app_inv_head in Hk.
  apply Hq'. rewrite Hk. apply elem_of_app. right.
  apply elem_of_app. left. by apply list_elem_of_singleton.
Qed.

(** Once the shell is settled below [c], a call with an operand that
    does not name a cache folder ends with status zero and leaves the
    shell settled below [c], whether its [cd] succeeds or fails. *)
Lemma call_settled m arg c s :
  (∀ e g, g ≠ tmp → is_dir (dir e !! g) = true → dir (run m e) !! g = dir e !! g) →
  tmp ∉ Words.path_of arg →
  settled c s →
  ((cd arg ;; in_cwd m ;; cd_minus) s).1 = Zero ∧
  settled c ((cd arg ;; in_cwd m ;; cd_minus) s).2.
Proof.
  intros Hm Harg (q & q' & Hc & Ho & Hq & Hq' & [D0 HD0] & Hex').
  destruct (dir_at (cwd s ++ Words.path_of arg) (fs s)) as [D|] eqn:HD.
  - rewrite (call_there m arg s D HD). cbv zeta. cbn [fst snd]. split; [done|].
    set (e := run m (Env D (stderr s))).
    exists q, (q ++ Words.path_of arg). cbn [cwd oldpwd fs].
    rewrite Hc in HD |- *. rewrite <- (app_assoc c q) in HD |- *.
    split_and!; [done | done | done | | |].
    + intros [H|H]%elem_of_app; [by apply Hq | by apply Harg].
    + rewrite (app_assoc c q). apply dir_at_above. rewrite <- app_assoc.
      by rewrite HD.
    + rewrite dir_at_set_dir; [by eexists | by rewrite HD].
  - rewrite <- Hc in HD0.
    rewrite (call_elsewhere m arg s D0 HD HD0). cbv zeta.
    set (e := run m (Env D0 (stderr s ++ [cd_failed arg]))).
    unfold cd_minus. cbn [oldpwd fs cwd stderr]. rewrite Ho.
    assert (Hk : is_Some (dir_at (c ++ q') (set_dir (cwd s) (dir e) (fs s)))).
    { apply (dir_at_kept (cwd s) (c ++ q') (dir e) D0 (fs s)); [done | | | done].
      - intros n Hn Hd. by apply (Hm (Env D0 (stderr s ++ [cd_failed arg]))).
      - rewrite Hc. by apply not_through_tmp. }
    destruct Hk as [D' HD']. rewrite HD'. cbn [fst snd]. split; [done|].
    exists q', q. cbn [cwd oldpwd fs].
    split_and!; [done | by rewrite Hc | done | done | rewrite HD'; by eexists |].
    rewrite <- Hc. rewrite dir_at_set_dir; [by eexists | by rewrite HD0].
Qed.

(** Both scripts end with status zero as soon as [_layouts] exists. *)
Lemma four_calls_status m s :
  (∀ e g, g ≠ tmp → is_dir (dir e !! g) = true → dir (run m e) !! g = dir e !! g) →
  is_Some (dir_at (cwd s ++ ["_layouts"]) (fs s)) →
  let script :=
    (cd "_layouts" ;; in_cwd m ;; cd_minus) ;;
    (cd "_layouts/indexes" ;; in_cwd m ;; cd_minus) ;;
    (cd "_layouts/indexes/category" ;; in_cwd m ;; cd_minus) ;;
    (cd "_layouts/partials" ;; in_cwd m ;; cd_minus) in
  (script s).1 = Zero.
Proof.
  intros Hm [D HD] script. unfold script.
  rewrite (sh_bind_run (cd "_layouts" ;; in_cwd m ;; cd_minus)). cbv beta.
  assert (S1 : settled (cwd s) ((cd "_layouts" ;; in_cwd m ;; cd_minus) s).2).
  { rewrite (call_there m "_layouts" s D HD). cbv zeta. cbn [snd].
    change (Words.path_of "_layouts") with ["_layouts"].
    exists [], ["_layouts"]. cbn [cwd oldpwd fs]. rewrite app_nil_r.
    split_and!; [done | done | apply not_elem_of_nil | | |].
    - apply (bool_decide_unpack _). vm_compute. exact I.
    - apply (dir_at_above (cwd s) ["_layouts"]). by rewrite HD.
    - rewrite dir_at_set_dir; [by eexists | by rewrite HD]. }
  set (s1 := ((cd "_layouts" ;; in_cwd m ;; cd_minus) s).2) in *.
  rewrite (sh_bind_run (cd "_layouts/indexes" ;; in_cwd m ;; cd_minus)). cbv beta.
  destruct (call_settled m "_layouts/indexes" (cwd s) s1 Hm) as [_ S2];
    [apply (bool_decide_unpack _); vm_compute; exact I | done |].
  set (s2 := ((cd "_layouts/indexes" ;; in_cwd m ;; cd_minus) s1).2) in *.
  rewrite (sh_bind_run (cd "_layouts/indexes/category" ;; in_cwd m ;; cd_minus)).
  cbv beta.
  destruct (call_settled m "_layouts/indexes/category" (cwd s) s2 Hm) as [_ S3];
    [apply (bool_decide_unpack _); vm_compute; exact I | done |].
  set (s3 := ((cd "_layouts/indexes/category" ;; in_cwd m ;; cd_minus) s2).2) in *.
  destruct (call_settled m "_layouts/partials" (cwd s) s3 Hm) as [Hz _];
    [apply (bool_decide_unpack _); vm_compute; exact I | done | done].
Qed.

(** C8, amended.  Neither script reads operands: each calls its function
    on [_layouts], [_layouts/indexes], [_layouts/indexes/category] and
    [_layouts/partials], in this order, and ends with the status of the
    last call, that is, of its closing [cd -].  As soon as [_layouts]
    exists below the starting directory, that status is zero, whatever
    fails on the way: a missing directory among the other three, a [cp]
    or an [rm] that fails, is not carried into the exit status. *)
Theorem scripts_exit_zero s :
  is_Some (dir_at (cwd s ++ ["_layouts"]) (fs s)) →
  (minify_script s).1 = Zero ∧ (unminify_script s).1 = Zero.
Proof.
  intros H1. split.
  - by apply (four_calls_status minify_here s minify_here_keeps).
  - by apply (four_calls_status unminify_here s unminify_here_keeps).
Qed.

End calls.

(** * Concrete runs *)

Section instances.
Import Pipeline Examples.

Ltac compute_decide := apply (bool_decide_unpack _); vm_compute; exact I.

(** What the fragment takes in and what it leaves out. *)
Example plain_words :
  map Words.plain ["post"; "serve.go"; ".env"; "a-b"; "x{{y"; "-n"; "[a]"; ".e*"; "b?a"]
    = [true; true; true; true; true; false; false; false; false].
Proof. reflexivity. Qed.

Example plain_operands :
  map Words.plain_operand
      ["_layouts"; "_layouts/indexes/category"; "a//b/"; ".."; "a/../b"; "."; "/a"; "-"]
    = [true; true; true; false; false; false; false; false].
Proof. reflexivity. Qed.

(** The scenario of the specification: [_layouts/post] before, after
    [minify], and after [unminify]. *)
Example scenario :
  let s1 := (minify "_layouts" site).2 in
  let s2 := (unminify "_layouts" s1).2 in
  entry_at ["site"; "_layouts"] "post" (fs s1) = Some (File (bytes "<p>hello</p>")) ∧
  cached_at ["site"; "_layouts"] "post" (fs s1) = Some (File page) ∧
  entry_at ["site"; "_layouts"] "post" (fs s2) = Some (File page) ∧
  entry_at ["site"; "_layouts"] tmp (fs s2) = None.
Proof. vm_compute. done. Qed.

(** C1 as stated fails: [spaced] holds two regular files, [a] and [b a];
    the listing yields the words [a], [b], [a], so [a] is backed up a
    second time, after it has been filtered, and [unminify] brings back
    the filtered bytes. *)
Lemma roundtrip_broken_by_split_name :
  entry_at ["d"] "a" (fs (above spaced)) = Some (File two_lines) ∧
  entry_at ["d"] "b a" (fs (above spaced)) = Some (File (bytes "z")) ∧
  entry_at ["d"] "a" (fs (unminify "d" (minify "d" (above spaced)).2).2)
    = Some (File (bytes "xy")) ∧
  two_lines ≠ bytes "xy".
Proof. vm_compute. done. Qed.

Lemma minify_unminify_roundtrip_witness :
  fs (unminify "_layouts" (minify "_layouts" site).2).2 = fs site.
Proof.
  apply (minify_unminify_roundtrip site "_layouts" layouts).
  - reflexivity.
  - reflexivity.
  - reflexivity.
  - reflexivity.
  - compute_decide.
Defined.

(** C2 as stated fails: the cache folder of [pruned] holds [gone], the
    directory does not; after [unminify] the file is still missing (and
    the cache folder is removed). *)
Lemma unminify_does_not_recreate :
  cached_at ["d"] "gone" (fs (above pruned)) = Some (File two_lines) ∧
  entry_at ["d"] "gone" (fs (above pruned)) = None ∧
  entry_at ["d"] "gone" (fs (unminify "d" (above pruned)).2) = None ∧
  entry_at ["d"] tmp (fs (unminify "d" (above pruned)).2) = None.
Proof. vm_compute. done. Qed.

Lemma unminify_restores_listed_files_witness :
  entry_at ["d"] "kept" (fs (unminify "d" (above pruned)).2) = Some (File two_lines) ∧
  ∀ n, pruned !! n = None →
       entry_at ["d"] n (fs (unminify "d" (above pruned)).2) = None.
Proof.
  apply (unminify_restores_listed_files (above pruned) "d" pruned "kept" two_lines).
  - reflexivity.
  - reflexivity.
  - reflexivity.
  - compute_decide.
  - reflexivity.
  - reflexivity.
Defined.




(** C5 as stated fails: [_layouts] has no cache folder, yet [unminify]
    returns status zero. *)
Lemma unminify_without_cache_status_zero :
  entry_at ["site"; "_layouts"] tmp (fs site) = None ∧
  (unminify "_layouts" site).1 = Zero.
Proof. vm_compute. done. Qed.

Lemma unminify_without_cache_witness :
  (unminify "_layouts" site).1 = Zero ∧
  fs (unminify "_layouts" site).2 = fs site ∧
  ∃ l, stderr (unminify "_layouts" site).2 = l ++ [rm_failed tmp].
Proof.
  apply (unminify_without_cache site "_layouts" layouts); reflexivity.
Defined.

(** C6 as stated fails: [nope] does not exist, and [minify nope] backs
    up and filters [serve.go] in the directory the shell stands in. *)
Lemma minify_missing_directory_hits_cwd :
  dir_at (cwd site ++ Words.path_of "nope") (fs site) = None ∧
  entry_at ["site"] "serve.go" (fs site) = Some (File go_source) ∧
  entry_at ["site"] "serve.go" (fs (minify "nope" site).2)
    = Some (File (bytes "package mainfunc main() {}")) ∧
  cached_at ["site"] "serve.go" (fs (minify "nope" site).2) = Some (File go_source).
Proof. vm_compute. done. Qed.

Lemma missing_directory_runs_in_cwd_witness :
  ∃ D0, dir_at (cwd site) (fs site) = Some D0 ∧
  (cd_failed "nope" ∈ stderr (minify "nope" site).2 ∧
   fs (minify "nope" site).2 =
     set_dir (cwd site)
       (dir (run minify_here (Env D0 (stderr site ++ [cd_failed "nope"])))) (fs site) ∧
   ∀ f, f ∈ ls_words D0 → kind_of (D0 !! f) = Regular →
        ∃ c, entry_at (cwd site) f (fs (minify "nope" site).2) = Some (File c) ∧ clean c) ∧
  (cd_failed "nope" ∈ stderr (unminify "nope" site).2 ∧
   fs (unminify "nope" site).2 =
     set_dir (cwd site)
       (dir (run unminify_here (Env D0 (stderr site ++ [cd_failed "nope"])))) (fs site) ∧
   (is_dir (D0 !! tmp) = true →
    entry_at (cwd site) tmp (fs (unminify "nope" site).2) = None)).
Proof.
  eexists. split; [reflexivity|].
  apply (missing_directory_runs_in_cwd site "nope"); reflexivity.
Defined.

(** C7 as stated fails: in [nested] the file [a] is named by two words.
    The first [minify] leaves [{2,}] in it; after the second the cached
    copy is empty. *)
Lemma second_minify_caches_other_content :
  entry_at ["d"] "a" (fs (minify "d" (above nested)).2) = Some (File (bytes "{2,}")) ∧
  cached_at ["d"] "a" (fs (minify "d" (minify "d" (above nested)).2).2)
    = Some (File []).
Proof. vm_compute. done. Qed.

Lemma minify_twice_caches_minified_witness :
  (minify "_layouts" (minify "_layouts" site).2).1 = Zero ∧
  cached_at ["site"; "_layouts"] "post"
    (fs (minify "_layouts" (minify "_layouts" site).2).2)
    = Some (File (bytes "<p>hello</p>")).
Proof.
  apply (minify_twice_caches_minified site "_layouts" layouts "post").
  - reflexivity.
  - reflexivity.
  - reflexivity.
  - compute_decide.
  - compute_decide.
  - reflexivity.
  - vm_compute. discriminate.
  - reflexivity.
  - vm_compute. reflexivity.
Defined.

(** C8 as stated fails: in [site_flat] the directory
    [_layouts/indexes/category] is missing.  The third [cd] fails, and so
    does the fourth, which starts from [_layouts/indexes]; the script
    still ends with status zero. *)
Lemma minify_script_exit_zero_despite_failure :
  dir_at ["site"; "_layouts"; "indexes"; "category"] (fs site_flat) = None ∧
  (minify_script site_flat).1 = Zero ∧
  stderr (minify_script site_flat).2
    = [cd_failed "_layouts/indexes/category"; cd_failed "_layouts/partials"].
Proof. vm_compute. done. Qed.

Lemma scripts_exit_zero_witness :
  (minify_script site_flat).1 = Zero ∧ (unminify_script site_flat).1 = Zero.
Proof. apply (scripts_exit_zero site_flat); vm_compute; by eexists. Defined.

(** C9 as stated fails: [.env] is the second word of the listed name
    [x .env], so [minify] backs it up and filters it. *)
Lemma hidden_file_minified_through_split_name :
  hidden ".env" = true ∧
  entry_at ["d"] ".env" (fs (above dotted)) = Some (File two_lines) ∧
  entry_at ["d"] ".env" (fs (minify "d" (above dotted)).2) = Some (File (bytes "xy")) ∧
  cached_at ["d"] ".env" (fs (minify "d" (above dotted)).2) = Some (File two_lines).
Proof. vm_compute. done. Qed.

Lemma hidden_entries_untouched_witness :
  (entry_at ["d"] ".env" (fs (minify "d" (above quiet)).2) = quiet !! ".env" ∧
   cached_at ["d"] ".env" (fs (minify "d" (above quiet)).2) = cache_of quiet !! ".env" ∧
   cached_at ["d"] tmp (fs (minify "d" (above quiet)).2) = cache_of quiet !! tmp) ∧
  entry_at ["d"] ".env" (fs (unminify "d" (above quiet)).2) = quiet !! ".env".
Proof.
  apply (hidden_entries_untouched (above quiet) "d" quiet ".env").
  - reflexivity.
  - reflexivity.
  - reflexivity.
  - reflexivity.
  - discriminate.
  - compute_decide.
Defined.


End instances.

(** * Further properties of the scripts *)

(** ** The pipeline only deletes *)

Section pipeline_more.
Import Pipeline.

Lemma tr_d_sublist c s : tr_d c s `sublist_of` s.
Proof.
induction s as [|b s IH]; cbn; [done|].
destruct (Byte.eqb b c); [by apply sublist_cons | by apply sublist_skip].
Qed.

Lemma sed_delete_sublist p k s : sed_delete p k s `sublist_of` s.
Proof.
revert k. induction s as [|b s IH]; intros k; cbn; [done|].
destruct k as [|k]; [|by apply sublist_cons].
destruct (starts_with p (b :: s)); [by apply sublist_cons | by apply sublist_skip].
Qed.

(** The bytes that come out of the pipeline are bytes of the input, in
    their order: nothing is added, replaced or moved. *)
Theorem pipeline_only_deletes s : pipeline s `sublist_of` s.
Proof.
unfold pipeline, strip, sed_s_g.
etrans; [apply sed_delete_sublist|]. etrans; apply tr_d_sublist.
Qed.

Lemma tr_d_absent c s : c ∉ s → tr_d c s = s.
Proof.
induction s as [|b s IH]; cbn; [done|].
rewrite not_elem_of_cons. intros [Hne Hs].
destruct (Byte.eqb b c) eqn:E.
- apply byte_eqb_true in E. congruence.
- by rewrite IH.
Qed.

Lemma strip_clean s : clean s → strip s = s.
Proof.
intros [Hn Ht]. unfold strip. rewrite (tr_d_absent newline) by done.
by apply tr_d_absent.
Qed.

Lemma sed_delete_length p k s : length (sed_delete p k s) ≤ length s.
Proof. apply sublist_length, sed_delete_sublist. Qed.

(** Where the regex text occurs, the substitution makes the line
    shorter. *)
Lemma sed_delete_shrinks p s :
  p ≠ [] → occursb p s = true → length (sed_delete p 0 s) < length s.
Proof.
intros Hp. induction s as [|b s IH]; cbn.
- destruct p; [done | discriminate].
- destruct (starts_with p (b :: s)) eqn:Hsw; cbn.
  + intros _. pose proof (sed_delete_length p (length p - 1) s). lia.
  + intros Ho. apply IH in Ho. lia.
Qed.

(** The contents the pipeline leaves as they are: those without newline
    and tab in which the text [{2,}] does not occur. *)
Theorem pipeline_fixed_point c :
  pipeline c = c ↔ clean c ∧ occursb sed_regex c = false.
Proof.
split.
- intros Hfix. assert (Hc : clean c) by (rewrite <- Hfix; apply pipeline_clean).
  split; [done|]. apply not_true_is_false. intros Ho.
  unfold pipeline in Hfix. rewrite (strip_clean c Hc) in Hfix.
  pose proof (sed_delete_shrinks sed_regex c) as Hlt.
  unfold sed_s_g in Hfix. rewrite Hfix in Hlt.
  specialize (Hlt ltac:(discriminate) Ho). lia.
- intros [Hc Ho]. unfold pipeline. rewrite (strip_clean c Hc).
  by apply sed_delete_absent.
Qed.

End pipeline_more.

(** ** Ordinary names *)

Section words_more.
Import Words.

(** When every visible name is non-empty, free of white space and free
    of pattern characters, the loop runs over the listing itself: each
    visible entry once, and nothing else. *)
Theorem ordinary_names_listed_once (D : gmap string node) :
  (∀ n, is_Some (D !! n) → hidden n = false →
        has_ifs n = false ∧ has_glob n = false ∧ n ≠ EmptyString) →
  ls_words D = ls D ∧
  NoDup (ls_words D) ∧
  ∀ w, w ∈ ls_words D ↔ is_Some (D !! w) ∧ hidden w = false.
Proof.
intros H.
assert (Heq : ls_words D = ls D).
{ rewrite ls_words_bind.
  assert (Hl : ∀ n, n ∈ ls D → fields n = [n]).
  { intros n [Hn Hh]%elem_of_ls. destruct (H n Hn Hh) as (?&_&?).
    by apply fields_plain. }
  induction (ls D) as [|n l IH]; [done|]. cbn [mbind list_bind].
  rewrite Hl by (by left). cbn. f_equal. apply IH.
  intros m Hm. apply Hl. by right. }
rewrite Heq. split_and!; [done | apply NoDup_ls | apply elem_of_ls].
Qed.

End words_more.

(** ** What a call does, entry by entry *)

Section entries_more.
Import Pipeline.
Implicit Types (D C X : gmap string node) (e : env) (f g n : string).
Implicit Types (ws : list string).

(** A turn for a name that is not a regular file does nothing at all. *)
Lemma minify_file_skip f e : is_file (dir e !! f) = false → run (minify_file f) e = e.
Proof.
destruct e as [D l]. unfold run, minify_file, if_then, test_f. cbn.
by intros ->.
Qed.

(** A turn for a regular file whose backup can be written: the new
    directory, and nothing printed. *)
Lemma minify_file_run f e c :
  dir e !! f = Some (File c) → is_dir (dir e !! tmp) = true →
  is_dir (cache_of (dir e) !! f) = false →
  run (minify_file f) e =
  Env (<[f := File (pipeline c)]>
         (<[tmp := Dir (<[f := File c]> (cache_of (dir e)))]> (dir e)))
      (err e).
Proof.
destruct e as [D l]. cbn [dir err]. intros Hf Ht Hc.
assert (f ≠ tmp) by (intros ->; by rewrite Hf in Ht).
pose proof (is_dir_cache _ Ht) as Ht'.
unfold run, minify_file, if_then, test_f. cbn [dir]. rewrite Hf. cbn [is_file snd].
unfold mbind, cmd_bind, cp, cat, redirect.
cbn [dir resolve store basename]. rewrite Hf, Ht'.
rewrite decide_False by done.
destruct (cache_of D !! f) as [[y|E]|] eqn:Hcf; try done; cbn;
  rewrite lookup_insert_eq; cbn; rewrite lookup_insert_eq; cbn;
  rewrite lookup_insert_ne by done; by rewrite Hf.
Qed.

Lemma minify_loop_silent ws e :
  is_dir (dir e !! tmp) = true →
  (∀ g, is_dir (cache_of (dir e) !! g) = false) →
  err (run (for_in ws minify_file) e) = err e.
Proof.
intros Ht Hc.
apply (for_in_invariant
         (λ e', err e' = err e ∧ is_dir (dir e' !! tmp) = true ∧
                ∀ g, is_dir (cache_of (dir e') !! g) = false)); [|done].
intros f e' _ (IH1 & IH2 & IH3).
destruct (dir e' !! f) as [[c|?]|] eqn:Hf;
  [| by rewrite minify_file_skip by (by rewrite Hf) ..].
assert (f ≠ tmp) by (intros ->; by rewrite Hf in IH2).
rewrite (minify_file_run f e' c) by done. cbn [dir err]. split_and!; [done | |].
- by rewrite lookup_insert_ne, lookup_insert_eq.
- intros g. rewrite cache_of_insert_ne, cache_of_insert_tmp by done.
  destruct (decide (g = f)) as [->|]; [by rewrite lookup_insert_eq|].
  by rewrite lookup_insert_ne.
Qed.

(** On a directory without cache folder [minify] prints nothing. *)
Lemma minify_here_silent e :
  dir e !! tmp = None → err (run minify_here e) = err e.
Proof.
intros Ht. rewrite minify_here_loop. cbv zeta.
set (e1 := run (if_then (test_not (test_d tmp)) (mkdir tmp)) e).
assert (He1 : e1 = Env (<[tmp := Dir ∅]> (dir e)) (err e)).
{ unfold e1. destruct e as [D l]. cbn in Ht.
  unfold run, if_then, test_not, test_d, mkdir. cbn. by rewrite Ht. }
rewrite minify_loop_silent; rewrite He1; cbn [dir err]; [done | |].
- by rewrite lookup_insert_eq.
- intros g. by rewrite cache_of_insert_tmp, lookup_empty.
Qed.

(** When no word names a regular file, [minify] only creates the cache
    folder. *)
Lemma minify_here_nothing e :
  dir e !! tmp = None →
  (∀ f, f ∈ ls_words (dir e) → kind_of (dir e !! f) ≠ Regular) →
  run minify_here e = Env (<[tmp := Dir ∅]> (dir e)) (err e).
Proof.
intros Ht Hw. rewrite minify_here_loop. cbv zeta.
set (e1 := run (if_then (test_not (test_d tmp)) (mkdir tmp)) e).
assert (He1 : e1 = Env (<[tmp := Dir ∅]> (dir e)) (err e)).
{ unfold e1. destruct e as [D l]. cbn in Ht.
  unfold run, if_then, test_not, test_d, mkdir. cbn. by rewrite Ht. }
apply (for_in_invariant (λ e', e' = Env (<[tmp := Dir ∅]> (dir e)) (err e)));
  [|done].
intros f e' Hf ->. apply minify_file_skip. cbn [dir].
apply (mkdir_tmp_words e) in Hf. apply Hw in Hf.
destruct (decide (f = tmp)) as [->|]; [by rewrite lookup_insert_eq|].
rewrite lookup_insert_ne by done. by destruct (dir e !! f) as [[|]|].
Qed.

(** A turn for [f] leaves the cached copy of [g] alone unless [g] is the
    regular file [f]. *)
Lemma minify_file_cache_skip f e g :
  g ≠ f ∨ kind_of (dir e !! g) ≠ Regular →
  cache_of (dir (run (minify_file f) e)) !! g = cache_of (dir e) !! g.
Proof.
intros [Hg|Hg]; [by apply minify_file_cache_other|].
destruct (decide (g = f)) as [->|]; [|by apply minify_file_cache_other].
rewrite minify_file_skip; [done|]. by destruct (dir e !! f) as [[|]|].
Qed.

Lemma minify_loop_cache_skip ws e g :
  g ∉ ws ∨ kind_of (dir e !! g) ≠ Regular →
  cache_of (dir (run (for_in ws minify_file) e)) !! g = cache_of (dir e) !! g.
Proof.
intros Hg.
apply (for_in_invariant
         (λ e', cache_of (dir e') !! g = cache_of (dir e) !! g ∧
                kind_of (dir e' !! g) = kind_of (dir e !! g))); [|done].
intros f e' Hf [IH1 IH2]. split.
- rewrite <- IH1. apply minify_file_cache_skip. rewrite IH2.
  destruct Hg as [Hg|Hg]; [left; by intros -> | by right].
- by rewrite minify_file_kind.
Qed.

(** The entries after [minify] on a directory without cache folder and
    without repeated word. *)
Lemma minify_here_entry e n :
  dir e !! tmp = None → NoDup (ls_words (dir e)) → n ≠ tmp →
  dir (run minify_here e) !! n =
  match dir e !! n with
  | Some (File c) =>
      if decide (n ∈ ls_words (dir e)) then Some (File (pipeline c))
      else Some (File c)
  | o => o
  end.
Proof.
intros Ht Hnd Hn. destruct (dir e !! n) as [[c|E]|] eqn:Hc.
- case_decide as Hin.
  + apply (minify_here_once e n c); try done; [by rewrite Ht|].
    unfold cache_of. by rewrite Ht, lookup_empty.
  + rewrite minify_here_other; [done | done | by left].
- rewrite minify_here_other; [done | done |]. right. by rewrite Hc.
- rewrite minify_here_other; [done | done |]. right. by rewrite Hc.
Qed.

(** The cache folder after [minify] on such a directory. *)
Lemma minify_here_backup e n :
  dir e !! tmp = None → NoDup (ls_words (dir e)) →
  cache_of (dir (run minify_here e)) !! n =
  match dir e !! n with
  | Some (File c) =>
      if decide (n ∈ ls_words (dir e)) then Some (File c) else None
  | _ => None
  end.
Proof.
intros Ht Hnd.
assert (Hempty : cache_of (dir e) !! n = None).
{ unfold cache_of. by rewrite Ht, lookup_empty. }
assert (Hskip : n ∉ ls_words (dir e) ∨ kind_of (dir e !! n) ≠ Regular →
                cache_of (dir (run minify_here e)) !! n = None).
{ intros H. rewrite <- Hempty. rewrite minify_here_loop. cbv zeta.
  rewrite minify_loop_cache_skip; [by rewrite mkdir_tmp_cache|].
  rewrite mkdir_tmp_words. destruct H as [H|H]; [by left | right].
  rewrite mkdir_tmp_dir, Ht.
  destruct (decide (n = tmp)) as [->|]; [by rewrite lookup_insert_eq|].
  by rewrite lookup_insert_ne. }
destruct (dir e !! n) as [[c|E]|] eqn:Hc; [| apply Hskip; by right ..].
case_decide as Hin; [|apply Hskip; by left].
apply (minify_here_once e n c); try done; [by rewrite Ht | by rewrite Hempty].
Qed.

(** *** [unminify] *)

Lemma unminify_file_cache f e :
  cache_of (dir (run (unminify_file f) e)) = cache_of (dir e).
Proof.
pose proof (unminify_loop_cache [f] e) as H.
by rewrite run_for_in_cons in H.
Qed.

(** What a turn of [unminify] leaves behind, diagnostics included. *)
Lemma unminify_file_run f e :
  run (unminify_file f) e =
  match dir e !! f, cache_of (dir e) !! f with
  | Some (File _), Some (File c) => Env (<[f := File c]> (dir e)) (err e)
  | Some (File _), _ =>
      Env (dir e) (err e ++ [cp_failed (Cached f) (Entry f)])
  | _, _ => e
  end.
Proof.
destruct e as [D l]. unfold run, unminify_file, if_then, test_f. cbn [dir err].
destruct (D !! f) as [[x|E]|] eqn:Hf; cbn [is_file snd]; try done.
unfold cp, cache_of. cbn [dir resolve store basename].
destruct (D !! tmp) as [[y|C]|] eqn:Ht; cbn; rewrite ?lookup_empty; try done.
destruct (C !! f) as [[c|E]|]; cbn; try done.
rewrite decide_False by done. by rewrite Hf.
Qed.

(** A regular file without regular cached copy stays as it is. *)
Lemma unminify_loop_miss ws e g :
  is_file (cache_of (dir e) !! g) = false →
  dir (run (for_in ws unminify_file) e) !! g = dir e !! g.
Proof.
intros Hg.
apply (for_in_invariant
         (λ e', dir e' !! g = dir e !! g ∧ cache_of (dir e') = cache_of (dir e)));
  [|done].
intros f e' _ [IH1 IH2]. split; [|by rewrite unminify_file_cache].
rewrite <- IH1. rewrite unminify_file_dir.
destruct (dir e' !! f) as [[x|?]|] eqn:Hf; try done.
destruct (cache_of (dir e') !! f) as [[c|?]|] eqn:Hc; try done.
destruct (decide (g = f)) as [->|]; [|by rewrite lookup_insert_ne].
rewrite IH2 in Hc. by rewrite Hc in Hg.
Qed.

(** The entries after [unminify], other than the cache folder. *)
Lemma unminify_here_entry e n :
  n ≠ tmp →
  dir (run unminify_here e) !! n =
  match dir e !! n, cache_of (dir e) !! n with
  | Some (File _), Some (File c) =>
      if decide (n ∈ ls_words (dir e)) then Some (File c) else dir e !! n
  | _, _ => dir e !! n
  end.
Proof.
intros Hn. destruct (dir e !! n) as [[x|E]|] eqn:Hx.
- destruct (cache_of (dir e) !! n) as [[c|?]|] eqn:Hc.
  + case_decide as Hin.
    * apply unminify_here_hit; [done | by rewrite Hx | done].
    * rewrite unminify_here_other; [done | done | by left].
  + rewrite unminify_here_lookup, unminify_loop_miss by (by rewrite ?Hc). done.
  + rewrite unminify_here_lookup, unminify_loop_miss by (by rewrite ?Hc). done.
- rewrite unminify_here_other; [done | done |]. right. by rewrite Hx.
- rewrite unminify_here_other; [done | done |]. right. by rewrite Hx.
Qed.

(** [unminify] does not look into subdirectories: replacing one commutes
    with it. *)
Lemma unminify_here_graft X n E l :
  n ≠ tmp → is_dir (X !! n) = true →
  dir (run unminify_here (Env (<[n := Dir E]> X) l)) =
  <[n := Dir E]> (dir (run unminify_here (Env X l))).
Proof.
intros Hn Hd. apply map_eq. intros k.
destruct (decide (k = tmp)) as [->|Hk].
- rewrite lookup_insert_ne by done. rewrite !unminify_here_tmp. cbn [dir].
  by rewrite lookup_insert_ne.
- destruct (decide (k = n)) as [->|Hkn].
  + rewrite lookup_insert_eq. rewrite unminify_here_other; cbn [dir].
    * by rewrite lookup_insert_eq.
    * done.
    * right. by rewrite lookup_insert_eq.
  + rewrite lookup_insert_ne by done. rewrite !unminify_here_entry by done.
    cbn [dir]. rewrite cache_of_insert_ne by done.
    rewrite lookup_insert_ne by done.
    destruct (X !! k) as [[x|?]|]; try done.
    destruct (cache_of X !! k) as [[c|?]|]; try done.
    apply decide_ext, ls_words_same_names. intros m _.
    destruct (decide (m = n)) as [->|].
    * rewrite lookup_insert_eq. destruct (X !! n); [split; by eexists | done].
    * by rewrite lookup_insert_ne.
Qed.

Lemma unminify_loop_silent ws e :
  (∀ w, w ∈ ws → kind_of (dir e !! w) = Regular →
        is_file (cache_of (dir e) !! w) = true) →
  err (run (for_in ws unminify_file) e) = err e.
Proof.
intros Hw.
apply (for_in_invariant
         (λ e', err e' = err e ∧ cache_of (dir e') = cache_of (dir e) ∧
                ∀ g, kind_of (dir e' !! g) = kind_of (dir e !! g))); [|done].
intros f e' Hf (IH1 & IH2 & IH3). split_and!.
- rewrite unminify_file_run.
  destruct (dir e' !! f) as [[x|?]|] eqn:Hx; try done.
  specialize (Hw f Hf). rewrite <- IH3, Hx, <- IH2 in Hw.
  specialize (Hw eq_refl).
  by destruct (cache_of (dir e') !! f) as [[c|?]|].
- by rewrite unminify_file_cache.
- intros g. by rewrite unminify_file_kind.
Qed.

(** With a cache folder that holds a regular copy of every regular file
    named by a word, [unminify] prints nothing. *)
Lemma unminify_here_silent e :
  is_dir (dir e !! tmp) = true →
  (∀ w, w ∈ ls_words (dir e) → kind_of (dir e !! w) = Regular →
        is_file (cache_of (dir e) !! w) = true) →
  err (run unminify_here e) = err e.
Proof.
intros Ht Hw. rewrite unminify_here_loop.
set (e1 := run (for_in (ls_words (dir e)) unminify_file) e).
assert (H1 : err e1 = err e) by by apply unminify_loop_silent.
assert (H2 : is_dir (dir e1 !! tmp) = true).
{ rewrite <- Ht. apply kind_is_dir, unminify_loop_kind. }
destruct e1 as [D1 l1]. cbn in *.
unfold run, mbind, cmd_bind, rm_r. cbn. by rewrite H2.
Qed.

End entries_more.

(** ** Paths, once more *)

Section tree_more.
Implicit Types (p q : list string) (R N D T : gmap string node) (n : string).

Lemma dir_at_app p q R : dir_at (p ++ q) R = dir_at p R ≫= dir_at q.
Proof.
revert R. induction p as [|x p IH]; intros R; [done|]. cbn.
destruct (R !! x) as [[|E]|]; [done | apply IH | done].
Qed.

Lemma set_dir_app p q N R T :
  dir_at p R = Some T → set_dir (p ++ q) N R = set_dir p (set_dir q N T) R.
Proof.
revert R. induction p as [|x p IH]; intros R; cbn.
- by intros [= ->].
- destruct (R !! x) as [[|E]|]; try done. intros H. by rewrite (IH _ H).
Qed.

(** Replacing the directory at [p] changes no entry [q/n] that is neither
    on the way to [p] nor below it. *)
Lemma entry_at_frame p q n N R :
  ¬ p `prefix_of` q → ¬ (q ++ [n]) `prefix_of` p →
  entry_at q n (set_dir p N R) = entry_at q n R.
Proof.
revert q R. induction p as [|y p IH]; intros q R Hpq Hqp.
- destruct Hpq. apply prefix_nil.
- cbn. destruct (R !! y) as [[|E]|] eqn:Hy; try done.
  destruct q as [|x q]; unfold entry_at; cbn.
  + rewrite lookup_insert_ne; [done|]. intros ->. apply Hqp.
    by apply prefix_cons, prefix_nil.
  + destruct (decide (x = y)) as [->|Hne].
    * rewrite lookup_insert_eq, Hy. apply (IH q E).
      -- intros H. apply Hpq. by apply prefix_cons.
      -- intros H. apply Hqp. by apply prefix_cons.
    * by rewrite lookup_insert_ne.
Qed.

End tree_more.

(** ** Single calls *)

Section calls_more.
Import Pipeline.
Implicit Types (D : gmap string node) (s : shell) (arg n f : string).

(** The effect of [unminify] on the target directory (plain operand,
    plain listing), entry by entry: the
    cache folder goes; a regular file named by a word of the listing takes
    the content of its regular cached copy, if there is one; every other
    entry stays as it is. *)
Theorem unminify_entry_by_entry s arg D n :
  Words.plain_operand arg = true →
  dir_at (cwd s ++ Words.path_of arg) (fs s) = Some D →
  plain_listing D = true →
  entry_at (cwd s ++ Words.path_of arg) n (fs (unminify arg s).2) =
  if decide (n = tmp) then if is_dir (D !! tmp) then None else D !! tmp
  else match D !! n, cache_of D !! n with
       | Some (File _), Some (File c) =>
           if decide (n ∈ ls_words D) then Some (File c) else D !! n
       | _, _ => D !! n
       end.
Proof.
intros _ HD _. rewrite (unminify_there arg s D HD). cbv zeta. cbn [snd fs].
rewrite entry_at_set_dir by (by rewrite HD). case_decide as Hn.
- subst n. by rewrite unminify_here_tmp.
- by rewrite unminify_here_entry.
Qed.

(** The effect of [minify] on a ready directory (plain operand, plain
    listing), entry by entry: the cache
    folder exists afterwards; a regular file named by a word of the
    listing holds its filtered content and its old content is in the cache
    folder; every other entry stays as it is and has no cached copy. *)
Theorem minify_entry_by_entry s arg D n :
  Words.plain_operand arg = true →
  dir_at (cwd s ++ Words.path_of arg) (fs s) = Some D →
  plain_listing D = true →
  ready D → n ≠ tmp →
  entry_at (cwd s ++ Words.path_of arg) n (fs (minify arg s).2) =
    match D !! n with
    | Some (File c) =>
        if decide (n ∈ ls_words D) then Some (File (pipeline c))
        else Some (File c)
    | o => o
    end ∧
  cached_at (cwd s ++ Words.path_of arg) n (fs (minify arg s).2) =
    match D !! n with
    | Some (File c) => if decide (n ∈ ls_words D) then Some (File c) else None
    | _ => None
    end ∧
  is_dir (entry_at (cwd s ++ Words.path_of arg) tmp (fs (minify arg s).2)) = true.
Proof.
intros _ HD _ [Ht Hnd] Hn. rewrite (minify_there arg s D HD). cbv zeta. cbn [snd fs].
rewrite !entry_at_set_dir, cached_at_set_dir by (by rewrite HD). split_and!.
- by apply (minify_here_entry (Env D (stderr s))).
- by apply (minify_here_backup (Env D (stderr s))).
- apply minify_here_tmp. cbn [dir]. by rewrite Ht.
Qed.

(** On a directory (plain operand, plain listing) without cache folder
    in which no word of the listing names a regular file (an empty directory, say, or one that only holds
    subdirectories and hidden files) [minify] creates the empty cache
    folder and does nothing else: status zero, nothing printed. *)
Theorem minify_without_regular_files s arg D :
  Words.plain_operand arg = true →
  dir_at (cwd s ++ Words.path_of arg) (fs s) = Some D →
  plain_listing D = true →
  D !! tmp = None →
  (∀ f, f ∈ ls_words D → kind_of (D !! f) ≠ Regular) →
  minify arg s =
  (Zero, Shell (set_dir (cwd s ++ Words.path_of arg) (<[tmp := Dir ∅]> D) (fs s))
               (cwd s) (Some (cwd s ++ Words.path_of arg)) (stderr s)).
Proof.
intros _ HD _ Ht Hw. rewrite (minify_there arg s D HD). cbv zeta.
by rewrite (minify_here_nothing (Env D (stderr s))).
Qed.

(** A round trip on a ready directory (plain operand, plain listing)
    gives back the whole shell state:
    the tree is as before, nothing was printed, both calls end with status
    zero in the directory they started from.  Only [OLDPWD] has changed:
    it holds the target. *)
Theorem roundtrip_restores_the_shell s arg D :
  Words.plain_operand arg = true →
  dir_at (cwd s ++ Words.path_of arg) (fs s) = Some D →
  plain_listing D = true →
  ready D →
  (minify arg s).1 = Zero ∧
  unminify arg (minify arg s).2 =
  (Zero, Shell (fs s) (cwd s) (Some (cwd s ++ Words.path_of arg)) (stderr s)).
Proof.
intros _ HD _ [Ht Hnd]. rewrite (minify_there arg s D HD). cbv zeta. cbn [fst snd].
split; [done|].
set (p := cwd s ++ Words.path_of arg) in *.
set (e1 := run minify_here (Env D (stderr s))).
assert (He1 : err e1 = stderr s) by by apply (minify_here_silent (Env D (stderr s))).
rewrite (unminify_there arg _ (dir e1)); cbn [cwd fs stderr];
  [|fold p; apply dir_at_set_dir; by rewrite HD].
fold p. rewrite set_dir_set_dir. f_equal. f_equal.
- apply set_dir_id. rewrite HD. f_equal. symmetry. by apply roundtrip_dir.
- rewrite unminify_here_silent; cbn [dir err]; [done | |].
  + apply minify_here_tmp. cbn [dir]. by rewrite Ht.
  + intros w Hw Hk.
    assert (Hw' : w ∈ ls_words D).
    { apply (ls_words_same_names D (dir e1) w); [|exact Hw]. intros n Hn.
      by apply (minify_here_names (Env D (stderr s))). }
    assert (w ≠ tmp).
    { intros ->. unfold e1 in Hk.
      pose proof (minify_here_tmp (Env D (stderr s))) as Hd. cbn [dir] in Hd.
      rewrite Ht in Hd. specialize (Hd ltac:(done)).
      by destruct (dir (run minify_here (Env D (stderr s))) !! tmp) as [[|]|]. }
    unfold e1 in Hk. rewrite minify_here_kind in Hk by done. cbn [dir] in Hk.
    apply kind_regular in Hk as [c Hc].
    destruct (minify_here_once (Env D (stderr s)) w c) as [_ H2]; try done.
    { cbn [dir]. by rewrite Ht. }
    { cbn [dir]. unfold cache_of. by rewrite Ht, lookup_empty. }
    fold e1 in H2. by rewrite H2.
Qed.

(** A second [unminify] in a row (plain operand, plain listing) finds no
    cache folder: it changes nothing and [rm] complains. *)
Theorem unminify_twice s arg D :
  Words.plain_operand arg = true →
  dir_at (cwd s ++ Words.path_of arg) (fs s) = Some D →
  plain_listing D = true →
  is_dir (D !! tmp) = true →
  fs (unminify arg (unminify arg s).2).2 = fs (unminify arg s).2 ∧
  ∃ l, stderr (unminify arg (unminify arg s).2).2 = l ++ [rm_failed tmp].
Proof.
intros _ HD _ Ht. rewrite (unminify_there arg s D HD). cbv zeta. cbn [snd].
set (p := cwd s ++ Words.path_of arg) in *.
set (e1 := run unminify_here (Env D (stderr s))).
rewrite (unminify_there arg _ (dir e1)); cbn [cwd fs stderr snd];
  [|fold p; apply dir_at_set_dir; by rewrite HD].
fold p. rewrite set_dir_set_dir.
destruct (unminify_here_no_cache (Env (dir e1) (err e1))) as [H1 H2].
{ cbn [dir]. unfold e1. rewrite unminify_here_tmp. cbn [dir]. by rewrite Ht. }
split; [by rewrite H1 | done].
Qed.

Lemma unminify_here_kind e n :
  n ≠ tmp → kind_of (dir (run unminify_here e) !! n) = kind_of (dir e !! n).
Proof. intros. by rewrite unminify_here_lookup, unminify_loop_kind. Qed.

(** Apart from the cache folder, neither function (plain operand, plain
    listing) creates an entry, removes one, or turns a file into a
    directory or back. *)
Theorem calls_keep_the_kind_of_entries s arg D n :
  Words.plain_operand arg = true →
  dir_at (cwd s ++ Words.path_of arg) (fs s) = Some D →
  plain_listing D = true →
  n ≠ tmp →
  kind_of (entry_at (cwd s ++ Words.path_of arg) n (fs (minify arg s).2))
    = kind_of (D !! n) ∧
  kind_of (entry_at (cwd s ++ Words.path_of arg) n (fs (unminify arg s).2))
    = kind_of (D !! n).
Proof.
intros _ HD _ Hn. split.
- rewrite (minify_there arg s D HD). cbv zeta. cbn [snd fs].
  rewrite entry_at_set_dir by (by rewrite HD).
  by rewrite minify_here_kind.
- rewrite (unminify_there arg s D HD). cbv zeta. cbn [snd fs].
  rewrite entry_at_set_dir by (by rewrite HD).
  by rewrite unminify_here_kind.
Qed.

(** Neither function descends (plain operand, plain listing): an entry
    of the target that is a directory, other than the cache folder, is left
    exactly as it is, with all it contains. *)
Theorem calls_do_not_descend s arg D n E :
  Words.plain_operand arg = true →
  dir_at (cwd s ++ Words.path_of arg) (fs s) = Some D →
  plain_listing D = true →
  n ≠ tmp → D !! n = Some (Dir E) →
  entry_at (cwd s ++ Words.path_of arg) n (fs (minify arg s).2) = Some (Dir E) ∧
  entry_at (cwd s ++ Words.path_of arg) n (fs (unminify arg s).2) = Some (Dir E).
Proof.
intros _ HD _ Hn HE. split.
- rewrite (minify_there arg s D HD). cbv zeta. cbn [snd fs].
  rewrite entry_at_set_dir by (by rewrite HD).
  rewrite minify_here_keeps; cbn [dir]; [done | done | by rewrite HE].
- rewrite (unminify_there arg s D HD). cbv zeta. cbn [snd fs].
  rewrite entry_at_set_dir by (by rewrite HD).
  rewrite unminify_here_keeps; cbn [dir]; [done | done | by rewrite HE].
Qed.

Lemma call_strays (m : cmd unit) arg s D0 o :
  (∀ e g, g ≠ tmp → is_dir (dir e !! g) = true → dir (run m e) !! g = dir e !! g) →
  dir_at (cwd s ++ Words.path_of arg) (fs s) = None →
  dir_at (cwd s) (fs s) = Some D0 →
  oldpwd s = Some o → is_Some (dir_at o (fs s)) →
  ¬ (cwd s ++ [tmp]) `prefix_of` o →
  ((cd arg ;; in_cwd m ;; cd_minus) s).1 = Zero ∧
  cwd ((cd arg ;; in_cwd m ;; cd_minus) s).2 = o ∧
  oldpwd ((cd arg ;; in_cwd m ;; cd_minus) s).2 = Some (cwd s).
Proof.
intros Hm Hp HD0 Ho Hso Hpre. rewrite (call_elsewhere m arg s D0 Hp HD0). cbv zeta.
unfold cd_minus. cbn [oldpwd fs cwd stderr]. rewrite Ho.
set (e := run m (Env D0 (stderr s ++ [cd_failed arg]))).
destruct (dir_at_kept (cwd s) o (dir e) D0 (fs s)) as [Do HDo]; try done.
{ intros n Hn Hd. by apply (Hm (Env D0 (stderr s ++ [cd_failed arg]))). }
by rewrite HDo.
Qed.

(** After a failed [cd] (plain operand that names no directory) the
    closing [cd -] goes to [OLDPWD]: when that names an existing directory
    (not one inside the cache folder of the current one), the call ends
    there, with status zero, [OLDPWD] then naming the directory the call
    started in; the next relative path is resolved from the new
    directory. *)
Theorem failed_cd_ends_in_oldpwd s arg D0 o :
  Words.plain_operand arg = true →
  dir_at (cwd s ++ Words.path_of arg) (fs s) = None →
  dir_at (cwd s) (fs s) = Some D0 →
  plain_listing D0 = true →
  oldpwd s = Some o → is_Some (dir_at o (fs s)) →
  ¬ (cwd s ++ [tmp]) `prefix_of` o →
  ((minify arg s).1 = Zero ∧ cwd (minify arg s).2 = o ∧
   oldpwd (minify arg s).2 = Some (cwd s)) ∧
  ((unminify arg s).1 = Zero ∧ cwd (unminify arg s).2 = o ∧
   oldpwd (unminify arg s).2 = Some (cwd s)).
Proof.
intros _ Hp HD0 _ Ho Hso Hpre. split.
- by apply (call_strays minify_here arg s D0 o minify_here_keeps).
- by apply (call_strays unminify_here arg s D0 o unminify_here_keeps).
Qed.

End calls_more.

(** ** The scripts as a whole *)

Section scripts_more.
Import Pipeline.
Implicit Types (D T I C P R : gmap string node) (s : shell) (m : cmd unit).

(** A call on a directory [q] inside a directory [T] that sits at
    [base] below the working directory. *)
Lemma call_step m c base q arg s (R0 : gmap string node) T D :
  cwd s = c → fs s = set_dir (c ++ base) T R0 →
  is_Some (dir_at (c ++ base) R0) →
  dir_at q T = Some D → Words.path_of arg = base ++ q →
  ∃ l, cwd ((cd arg ;; in_cwd m ;; cd_minus) s).2 = c ∧
       fs ((cd arg ;; in_cwd m ;; cd_minus) s).2 =
       set_dir (c ++ base) (set_dir q (dir (run m (Env D l))) T) R0.
Proof.
intros Hc Hfs HR HD Harg.
assert (HT : dir_at (c ++ base) (fs s) = Some T).
{ rewrite Hfs. by apply dir_at_set_dir. }
assert (Hp : dir_at (cwd s ++ Words.path_of arg) (fs s) = Some D).
{ by rewrite Hc, Harg, app_assoc, dir_at_app, HT. }
rewrite (call_there m arg s D Hp). cbv zeta. cbn [snd cwd fs].
exists (stderr s). split; [done|].
rewrite Hc, Harg, app_assoc, (set_dir_app _ _ _ _ T HT).
by rewrite Hfs, set_dir_set_dir.
Qed.

(** The tree after the four calls of a script whose commands keep the
    subdirectories of the directory they work in: each of the four
    directories is replaced by what the commands make of it. *)
Lemma four_calls_shape m (script : sh status) s c (R0 : gmap string node) T I C P :
  script =
    ((cd "_layouts" ;; in_cwd m ;; cd_minus) ;;
     (cd "_layouts/indexes" ;; in_cwd m ;; cd_minus) ;;
     (cd "_layouts/indexes/category" ;; in_cwd m ;; cd_minus) ;;
     (cd "_layouts/partials" ;; in_cwd m ;; cd_minus)) →
  (∀ e g, g ≠ tmp → is_dir (dir e !! g) = true → dir (run m e) !! g = dir e !! g) →
  cwd s = c → fs s = set_dir (c ++ ["_layouts"]) T R0 →
  is_Some (dir_at (c ++ ["_layouts"]) R0) →
  T !! "indexes" = Some (Dir I) → I !! "category" = Some (Dir C) →
  T !! "partials" = Some (Dir P) →
  ∃ l1 l2 l3 l4,
    cwd (script s).2 = c ∧
    fs (script s).2 =
    set_dir (c ++ ["_layouts"])
      (<["partials" := Dir (dir (run m (Env P l4)))]>
         (<["indexes" := Dir (<["category" := Dir (dir (run m (Env C l3)))]>
                                (dir (run m (Env I l2))))]>
            (dir (run m (Env T l1))))) R0.
Proof.
intros -> Hm Hc Hfs HR HI HC HP.
rewrite (sh_bind_run (cd "_layouts" ;; in_cwd m ;; cd_minus)). cbv beta.
destruct (call_step m c ["_layouts"] [] "_layouts" s R0 T T) as (l1 & Hc1 & Hf1);
  [done..|].
set (s1 := ((cd "_layouts" ;; in_cwd m ;; cd_minus) s).2) in *.
cbn [set_dir] in Hf1. set (N1 := dir (run m (Env T l1))) in *.
assert (HI1 : N1 !! "indexes" = Some (Dir I)).
{ unfold N1. rewrite Hm; cbn [dir]; [done | done | by rewrite HI]. }
assert (HP1 : N1 !! "partials" = Some (Dir P)).
{ unfold N1. rewrite Hm; cbn [dir]; [done | done | by rewrite HP]. }
rewrite (sh_bind_run (cd "_layouts/indexes" ;; in_cwd m ;; cd_minus)). cbv beta.
destruct (call_step m c ["_layouts"] ["indexes"] "_layouts/indexes" s1 R0 N1 I)
  as (l2 & Hc2 & Hf2); [done | done | done | cbn; by rewrite HI1 | done |].
set (s2 := ((cd "_layouts/indexes" ;; in_cwd m ;; cd_minus) s1).2) in *.
cbn [set_dir] in Hf2. rewrite HI1 in Hf2.
set (N2 := dir (run m (Env I l2))) in *.
assert (HC2 : N2 !! "category" = Some (Dir C)).
{ unfold N2. rewrite Hm; cbn [dir]; [done | done | by rewrite HC]. }
rewrite (sh_bind_run (cd "_layouts/indexes/category" ;; in_cwd m ;; cd_minus)).
cbv beta.
destruct (call_step m c ["_layouts"] ["indexes"; "category"]
            "_layouts/indexes/category" s2 R0 (<["indexes" := Dir N2]> N1) C)
  as (l3 & Hc3 & Hf3); [done | done | done | | done |].
{ cbn. by rewrite lookup_insert_eq, HC2. }
set (s3 := ((cd "_layouts/indexes/category" ;; in_cwd m ;; cd_minus) s2).2) in *.
cbn [set_dir] in Hf3. rewrite lookup_insert_eq, HC2, insert_insert_eq in Hf3.
set (N3 := dir (run m (Env C l3))) in *.
destruct (call_step m c ["_layouts"] ["partials"] "_layouts/partials" s3 R0
            (<["indexes" := Dir (<["category" := Dir N3]> N2)]> N1) P)
  as (l4 & Hc4 & Hf4); [done | done | done | | done |].
{ cbn. by rewrite lookup_insert_ne, HP1. }
cbn [set_dir] in Hf4. rewrite lookup_insert_ne, HP1 in Hf4 by done.
by exists l1, l2, l3, l4.
Qed.

(** Both scripts, one after the other.  When the four layout directories
    exist and each of them is ready and has a plain listing,
    [unminify_script] run after [minify_script] gives back the tree
    exactly as it was. *)
Theorem scripts_roundtrip s DL DI DC DP :
  dir_at (cwd s ++ ["_layouts"]) (fs s) = Some DL →
  DL !! "indexes" = Some (Dir DI) →
  DI !! "category" = Some (Dir DC) →
  DL !! "partials" = Some (Dir DP) →
  plain_listing DL = true → plain_listing DI = true →
  plain_listing DC = true → plain_listing DP = true →
  ready DL → ready DI → ready DC → ready DP →
  fs (unminify_script (minify_script s).2).2 = fs s.
Proof.
intros HL HI HC HP _ _ _ _ RL RI RC RP.
destruct (four_calls_shape minify_here minify_script s (cwd s) (fs s) DL DI DC DP)
  as (l1 & l2 & l3 & l4 & Hc & Hf);
  [done | apply minify_here_keeps | done | by rewrite set_dir_id
  | by rewrite HL | done..|].
set (s1 := (minify_script s).2) in *.
set (mL := dir (run minify_here (Env DL l1))) in *.
set (mI := dir (run minify_here (Env DI l2))) in *.
set (mC := dir (run minify_here (Env DC l3))) in *.
set (mP := dir (run minify_here (Env DP l4))) in *.
assert (HmLI : is_dir (mL !! "indexes") = true).
{ unfold mL. rewrite minify_here_keeps; cbn [dir]; by rewrite ?HI. }
assert (HmLP : is_dir (mL !! "partials") = true).
{ unfold mL. rewrite minify_here_keeps; cbn [dir]; by rewrite ?HP. }
assert (HmIC : is_dir (mI !! "category") = true).
{ unfold mI. rewrite minify_here_keeps; cbn [dir]; by rewrite ?HC. }
destruct (four_calls_shape unminify_here unminify_script s1 (cwd s) (fs s)
            (<["partials" := Dir mP]>
               (<["indexes" := Dir (<["category" := Dir mC]> mI)]> mL))
            (<["category" := Dir mC]> mI) mC mP)
  as (l5 & l6 & l7 & l8 & _ & Hf');
  [done | apply unminify_here_keeps | done | done | by rewrite HL | | | |].
{ by rewrite lookup_insert_ne, lookup_insert_eq. }
{ by rewrite lookup_insert_eq. }
{ by rewrite lookup_insert_eq. }
rewrite Hf'. apply set_dir_id. rewrite HL. f_equal.
rewrite (unminify_here_graft _ "partials") by (by rewrite ?lookup_insert_ne).
rewrite (unminify_here_graft _ "indexes") by done.
rewrite (unminify_here_graft _ "category") by done.
unfold mL, mI, mC, mP. rewrite !roundtrip_dir by (by apply RL || by apply RI || by apply RC || by apply RP).
rewrite insert_insert_eq, (insert_id DI "category") by done.
apply map_eq. intros k.
destruct (decide (k = "partials")) as [->|Hkp]; [by rewrite lookup_insert_eq|].
rewrite lookup_insert_ne by done.
destruct (decide (k = "indexes")) as [->|Hki]; [by rewrite lookup_insert_eq|].
by rewrite !lookup_insert_ne by done.
Qed.

(** [minify_script] filters all four directories (each with a plain
    listing): in each of them every regular file named by a word of the
    listing ends up without newline and tab. *)
Theorem minify_script_filters_all_four s DL DI DC DP d D f :
  dir_at (cwd s ++ ["_layouts"]) (fs s) = Some DL →
  DL !! "indexes" = Some (Dir DI) →
  DI !! "category" = Some (Dir DC) →
  DL !! "partials" = Some (Dir DP) →
  plain_listing DL = true → plain_listing DI = true →
  plain_listing DC = true → plain_listing DP = true →
  (d, D) ∈ [ (["_layouts"], DL); (["_layouts"; "indexes"], DI);
             (["_layouts"; "indexes"; "category"], DC);
             (["_layouts"; "partials"], DP) ] →
  f ∈ ls_words D → kind_of (D !! f) = Regular →
  ∃ c, entry_at (cwd s ++ d) f (fs (minify_script s).2) = Some (File c) ∧ clean c.
Proof.
intros HL HI HC HP _ _ _ _ Hd Hf Hk.
destruct (four_calls_shape minify_here minify_script s (cwd s) (fs s) DL DI DC DP)
  as (l1 & l2 & l3 & l4 & Hc & Hfs);
  [done | apply minify_here_keeps | done | by rewrite set_dir_id
  | by rewrite HL | done..|].
assert (Hclean : ∀ l, ∃ c, dir (run minify_here (Env D l)) !! f = Some (File c) ∧ clean c).
{ intros l. destruct (minify_here_clean (Env D l) f Hf Hk) as [c Hc'].
  exists (pipeline c). split; [done | apply pipeline_clean]. }
assert (Hreg : ∀ n E, D !! n = Some (Dir E) → n ≠ f).
{ intros n E Hn <-. by rewrite Hn in Hk. }
rewrite Hfs. unfold entry_at.
assert (Hbase : ∀ q X, dir_at (cwd s ++ "_layouts" :: q)
                  (set_dir (cwd s ++ ["_layouts"]) X (fs s)) = dir_at q X).
{ intros q X. change ("_layouts" :: q) with (["_layouts"] ++ q).
  rewrite app_assoc, dir_at_app, dir_at_set_dir by (by rewrite HL). done. }
repeat (apply elem_of_cons in Hd as [[= -> ->]|Hd]); [| | | |by apply elem_of_nil in Hd].
- rewrite Hbase. cbn.
  rewrite !lookup_insert_ne by (by eapply Hreg). apply Hclean.
- rewrite Hbase. cbn. rewrite lookup_insert_ne, lookup_insert_eq by done. cbn.
  rewrite lookup_insert_ne by (by eapply Hreg). apply Hclean.
- rewrite Hbase. cbn. rewrite lookup_insert_ne, lookup_insert_eq by done. cbn.
  rewrite lookup_insert_eq. cbn. apply Hclean.
- rewrite Hbase. cbn. rewrite lookup_insert_eq. cbn. apply Hclean.
Qed.

(** When the four layout directories exist, every call comes back, and
    both scripts end in the directory they were started in. *)
Theorem scripts_return_to_start s :
  is_Some (dir_at (cwd s ++ ["_layouts"]) (fs s)) →
  is_Some (dir_at (cwd s ++ ["_layouts"; "indexes"]) (fs s)) →
  is_Some (dir_at (cwd s ++ ["_layouts"; "indexes"; "category"]) (fs s)) →
  is_Some (dir_at (cwd s ++ ["_layouts"; "partials"]) (fs s)) →
  cwd (minify_script s).2 = cwd s ∧ cwd (unminify_script s).2 = cwd s.
Proof.
intros H1 H2 H3 H4. split.
- by apply (four_calls minify_here s minify_here_keeps).
- by apply (four_calls unminify_here s unminify_here_keeps).
Qed.

End scripts_more.

Section misuse_more.
Implicit Types (D : gmap string node) (s : shell) (e : env) (f : string).

(** A turn for a regular file when there is no cache folder to copy into:
    the file is truncated. *)
Lemma minify_file_blocked f e c :
  is_dir (dir e !! tmp) = false → dir e !! f = Some (File c) →
  dir (run (minify_file f) e) = <[f := File []]> (dir e).
Proof. intros Ht Hf. by rewrite minify_file_dir, Hf, Ht. Qed.

Lemma minify_loop_blocked ws e f :
  is_dir (dir e !! tmp) = false →
  f ∈ ws → kind_of (dir e !! f) = Regular →
  dir (run (for_in ws minify_file) e) !! f = Some (File []).
Proof.
intros Ht Hin Hk. apply list_elem_of_split in Hin as (l1 & l2 & ->).
rewrite run_for_in_app, run_for_in_cons.
set (e1 := run (for_in l1 minify_file) e).
assert (Ht1 : is_dir (dir e1 !! tmp) = false).
{ rewrite <- Ht. apply kind_is_dir, minify_loop_kind. }
assert (Hk1 : kind_of (dir e1 !! f) = Regular).
{ rewrite <- Hk. apply minify_loop_kind. }
apply (for_in_invariant
         (λ e', dir e' !! f = Some (File []) ∧ is_dir (dir e' !! tmp) = false)).
- intros g e' _ [IH1 IH2]. split.
  + destruct (decide (g = f)) as [->|Hne].
    * rewrite (minify_file_blocked f e' []) by done. by rewrite lookup_insert_eq.
    * rewrite <- IH1. apply minify_file_other; [by left | by right].
  + rewrite <- IH2. apply kind_is_dir, minify_file_kind.
- apply kind_regular in Hk1 as [c Hc]. split.
  + rewrite (minify_file_blocked f e1 c) by done. by rewrite lookup_insert_eq.
  + rewrite <- Ht1. apply kind_is_dir, minify_file_kind.
Qed.

(** A regular file named [.tmp] stands in the way of the cache folder
    (plain operand, plain listing): [mkdir] and every [cp] fail, and the
    redirection still truncates.
    Every regular file named by a word of the listing ends up empty, with
    no backup, and [unminify] cannot bring it back. *)
Theorem minify_with_blocked_cache s arg D f :
  Words.plain_operand arg = true →
  dir_at (cwd s ++ Words.path_of arg) (fs s) = Some D →
  plain_listing D = true →
  kind_of (D !! tmp) = Regular →
  f ∈ ls_words D → kind_of (D !! f) = Regular →
  entry_at (cwd s ++ Words.path_of arg) f (fs (minify arg s).2) = Some (File []) ∧
  cached_at (cwd s ++ Words.path_of arg) f (fs (minify arg s).2) = None ∧
  entry_at (cwd s ++ Words.path_of arg) f (fs (unminify arg (minify arg s).2).2)
    = Some (File []).
Proof.
intros _ HD _ Ht Hin Hk. rewrite (minify_there arg s D HD). cbv zeta. cbn [snd fs].
set (p := cwd s ++ Words.path_of arg) in *.
set (e1 := run minify_here (Env D (stderr s))).
apply kind_regular in Ht as [x Hx].
assert (Hmk : dir (run (if_then (test_not (test_d tmp)) (mkdir tmp))
                       (Env D (stderr s))) = D).
{ rewrite mkdir_tmp_dir. cbn [dir]. by rewrite Hx. }
assert (Ht1 : is_dir (dir e1 !! tmp) = false).
{ unfold e1. rewrite minify_here_loop. cbv zeta.
  rewrite (kind_is_dir _ _ (minify_loop_kind _ _ tmp)), Hmk. by rewrite Hx. }
assert (Hf1 : dir e1 !! f = Some (File [])).
{ unfold e1. rewrite minify_here_loop. cbv zeta. apply minify_loop_blocked.
  - rewrite Hmk. by rewrite Hx.
  - by apply mkdir_tmp_words.
  - by rewrite Hmk. }
rewrite entry_at_set_dir, cached_at_set_dir by (by rewrite HD).
split_and!; [done | by rewrite cache_of_not_dir |].
rewrite (unminify_there arg _ (dir e1)); cbn [cwd fs stderr snd];
  [|fold p; apply dir_at_set_dir; by rewrite HD].
fold p. rewrite set_dir_set_dir, entry_at_set_dir by (by rewrite HD).
destruct (unminify_here_no_cache (Env (dir e1) (err e1)) Ht1) as [-> _]. done.
Qed.

(** [unminify_script] on a tree that was not minified: when none of the
    four directories (each with a plain listing) has a cache folder, the
    tree is left as it is. *)
Theorem unminify_script_without_caches s DL DI DC DP :
  dir_at (cwd s ++ ["_layouts"]) (fs s) = Some DL →
  DL !! "indexes" = Some (Dir DI) →
  DI !! "category" = Some (Dir DC) →
  DL !! "partials" = Some (Dir DP) →
  plain_listing DL = true → plain_listing DI = true →
  plain_listing DC = true → plain_listing DP = true →
  is_dir (DL !! tmp) = false → is_dir (DI !! tmp) = false →
  is_dir (DC !! tmp) = false → is_dir (DP !! tmp) = false →
  fs (unminify_script s).2 = fs s.
Proof.
intros HL HI HC HP _ _ _ _ TL TI TC TP.
destruct (four_calls_shape unminify_here unminify_script s (cwd s) (fs s) DL DI DC DP)
  as (l1 & l2 & l3 & l4 & _ & Hf);
  [done | apply unminify_here_keeps | done | by rewrite set_dir_id
  | by rewrite HL | done..|].
rewrite Hf. apply set_dir_id. rewrite HL. f_equal.
assert (Hno : ∀ X l, is_dir (X !! tmp) = false →
                     dir (run unminify_here (Env X l)) = X).
{ intros X l HX. by destruct (unminify_here_no_cache (Env X l) HX). }
rewrite !Hno by done.
by rewrite (insert_id DI "category"), (insert_id DL "indexes"), insert_id.
Qed.

End misuse_more.

(** ** Concrete runs, continued *)

Section instances_more.
Import Pipeline Examples Samples.

Ltac by_computation := apply (bool_decide_unpack _); vm_compute; exact I.

Lemma ordinary_names_listed_once_witness :
  ls_words layouts = ls layouts ∧
  NoDup (ls_words layouts) ∧
  ∀ w, w ∈ ls_words layouts ↔ is_Some (layouts !! w) ∧ hidden w = false.
Proof.
apply (ordinary_names_listed_once layouts).
intros n [x Hx]. revert n x Hx.
change (map_Forall (λ n _, hidden n = false →
                            Words.has_ifs n = false ∧ Words.has_glob n = false ∧
                            n ≠ EmptyString) layouts).
by_computation.
Defined.

Lemma unminify_entry_by_entry_witness :
  entry_at ["d"] "kept" (fs (unminify "d" (above pruned)).2) =
  if decide ("kept" = tmp) then if is_dir (pruned !! tmp) then None else pruned !! tmp
  else match pruned !! "kept", cache_of pruned !! "kept" with
       | Some (File _), Some (File c) =>
           if decide ("kept" ∈ ls_words pruned) then Some (File c)
           else pruned !! "kept"
       | _, _ => pruned !! "kept"
       end.
Proof.
apply (unminify_entry_by_entry (above pruned) "d" pruned "kept"); reflexivity.
Defined.

Lemma minify_entry_by_entry_witness :
  entry_at ["site"; "_layouts"] "post" (fs (minify "_layouts" site).2) =
    match layouts !! "post" with
    | Some (File c) =>
        if decide ("post" ∈ ls_words layouts) then Some (File (pipeline c))
        else Some (File c)
    | o => o
    end ∧
  cached_at ["site"; "_layouts"] "post" (fs (minify "_layouts" site).2) =
    match layouts !! "post" with
    | Some (File c) =>
        if decide ("post" ∈ ls_words layouts) then Some (File c) else None
    | _ => None
    end ∧
  is_dir (entry_at ["site"; "_layouts"] tmp (fs (minify "_layouts" site).2)) = true.
Proof.
apply (minify_entry_by_entry site "_layouts" layouts "post").
- reflexivity.
- reflexivity.
- reflexivity.
- split; [reflexivity | by_computation].
- discriminate.
Defined.

Lemma minify_without_regular_files_witness :
  minify "d" (above bare) =
  (Zero, Shell (set_dir ["d"] (<[tmp := Dir ∅]> bare) (fs (above bare)))
               [] (Some ["d"]) []).
Proof.
apply (minify_without_regular_files (above bare) "d" bare).
- reflexivity.
- reflexivity.
- reflexivity.
- reflexivity.
- intros f Hf.
  assert (Hl : ls_words bare = ["sub"]) by (vm_compute; reflexivity).
  rewrite Hl in Hf. apply list_elem_of_singleton in Hf as ->.
  intros H. vm_compute in H. discriminate H.
Defined.

Lemma roundtrip_restores_the_shell_witness :
  (minify "_layouts" site).1 = Zero ∧
  unminify "_layouts" (minify "_layouts" site).2 =
  (Zero, Shell (fs site) ["site"] (Some ["site"; "_layouts"]) []).
Proof.
apply (roundtrip_restores_the_shell site "_layouts" layouts).
- reflexivity.
- reflexivity.
- reflexivity.
- split; [reflexivity | by_computation].
Defined.

Lemma unminify_twice_witness :
  fs (unminify "d" (unminify "d" (above pruned)).2).2
    = fs (unminify "d" (above pruned)).2 ∧
  ∃ l, stderr (unminify "d" (unminify "d" (above pruned)).2).2
         = l ++ [rm_failed tmp].
Proof. apply (unminify_twice (above pruned) "d" pruned); reflexivity. Defined.

Lemma calls_keep_the_kind_of_entries_witness :
  kind_of (entry_at ["site"; "_layouts"] "post" (fs (minify "_layouts" site).2))
    = kind_of (layouts !! "post") ∧
  kind_of (entry_at ["site"; "_layouts"] "post" (fs (unminify "_layouts" site).2))
    = kind_of (layouts !! "post").
Proof.
apply (calls_keep_the_kind_of_entries site "_layouts" layouts "post");
  [reflexivity | reflexivity | reflexivity | discriminate].
Defined.

Lemma calls_do_not_descend_witness :
  entry_at ["site"; "_layouts"] "indexes" (fs (minify "_layouts" site).2)
    = Some (Dir indexes) ∧
  entry_at ["site"; "_layouts"] "indexes" (fs (unminify "_layouts" site).2)
    = Some (Dir indexes).
Proof.
apply (calls_do_not_descend site "_layouts" layouts "indexes" indexes);
  [reflexivity | reflexivity | reflexivity | discriminate | reflexivity].
Defined.

Lemma failed_cd_ends_in_oldpwd_witness :
  ((minify "nope" entered).1 = Zero ∧ cwd (minify "nope" entered).2 = [] ∧
   oldpwd (minify "nope" entered).2 = Some ["site"]) ∧
  ((unminify "nope" entered).1 = Zero ∧ cwd (unminify "nope" entered).2 = [] ∧
   oldpwd (unminify "nope" entered).2 = Some ["site"]).
Proof.
apply (failed_cd_ends_in_oldpwd entered "nope"
         {[ "_layouts" := Dir layouts; "serve.go" := File go_source ]} []).
- reflexivity.
- reflexivity.
- reflexivity.
- reflexivity.
- reflexivity.
- by eexists.
- by_computation.
Defined.

Lemma scripts_roundtrip_witness :
  fs (unminify_script (minify_script site).2).2 = fs site.
Proof.
apply (scripts_roundtrip site layouts indexes category partials);
  first [reflexivity | split; [reflexivity | by_computation]].
Defined.

Lemma scripts_return_to_start_witness :
  cwd (minify_script site).2 = cwd site ∧ cwd (unminify_script site).2 = cwd site.
Proof. apply (scripts_return_to_start site); vm_compute; by eexists. Defined.

Lemma minify_script_filters_all_four_witness :
  ∃ c, entry_at (cwd site ++ ["_layouts"; "indexes"]) "list"
         (fs (minify_script site).2) = Some (File c) ∧ clean c.
Proof.
apply (minify_script_filters_all_four site layouts indexes category partials
         ["_layouts"; "indexes"] indexes "list").
- reflexivity.
- reflexivity.
- reflexivity.
- reflexivity.
- reflexivity.
- reflexivity.
- reflexivity.
- reflexivity.
- apply elem_of_cons. right. apply elem_of_cons. by left.
- by_computation.
- reflexivity.
Defined.

Lemma minify_with_blocked_cache_witness :
  entry_at ["d"] "a" (fs (minify "d" (above blocked)).2) = Some (File []) ∧
  cached_at ["d"] "a" (fs (minify "d" (above blocked)).2) = None ∧
  entry_at ["d"] "a" (fs (unminify "d" (minify "d" (above blocked)).2).2)
    = Some (File []).
Proof.
apply (minify_with_blocked_cache (above blocked) "d" blocked "a").
- reflexivity.
- reflexivity.
- reflexivity.
- reflexivity.
- by_computation.
- reflexivity.
Defined.

Lemma unminify_script_without_caches_witness :
  fs (unminify_script site).2 = fs site.
Proof.
apply (unminify_script_without_caches site layouts indexes category partials);
  reflexivity.
Defined.

End instances_more.
